(** * vmchecker: the submission intake pipeline and the queue watcher

    A shallow embedding of [vmchecker/submit.py] and [bin/queue_manager.py],
    and, in a module of its own, of [bin/initialise_course.py].

    The Python code is effectful: it reads and writes a directory tree,
    spawns [git] and [unzip], talks to a remote host and raises exceptions.
    The embedding threads an explicit [world] (file system and the trace of
    primitive effects performed so far) through a state-and-exception monad
    whose state survives a raised exception, exactly like the side effects
    of a Python function survive the exception that aborts it.

    What the environment decides (I/O faults, exit statuses, random names,
    the clock, the parsed course configuration) is read from an [Env]
    oracle indexed by the number of primitive effects performed so far. *)

From Stdlib Require Import ZArith Lia Ascii.
From stdpp Require Import gmap strings list.

Local Open Scope string_scope.
Local Open Scope Z_scope.
Local Open Scope list_scope.
Local Open Scope stdpp_scope.

(** ** Paths, file contents and the directory tree *)

(** A path is the list of its components from the root; [os.path.join d x]
    is [d ++ [x]].  A [ConfigParser.RawConfigParser] is a table of sections,
    each a table of options. *)

#[local] Set Warnings "-register-all".

(** What a regular file holds.  A zip archive is kept as the list of its
    members in the order they were added; a file written by
    [RawConfigParser.write] is kept as the table it serialises. *)
Inductive content :=
  | Raw (bytes : string)
  | Zip (members : list (string * content))
  | Config (cfg : gmap string (gmap string string)).

Inductive node :=
  | Dir
  | File (c : content).

(** ** Exceptions *)

(** [SubmitedTooSoonError] is the only exception class [submit.py]
    declares; the others are the library exceptions its callees raise. *)
Inductive exn :=
  | SubmitedTooSoonError (message : string)
  | IOError
  | OSError
  | ShutilError
  | BadZipfile
  | UnsafeArchiveRejected
  | ValueError
  | NoSectionError (section : string)
  | DuplicateSectionError (section : string)
  | NoCourseError (course_id : string)
  | CalledProcessError (status : Z)
  | SocketError
  | SSHException.

(** The class of an exception, which is what an [except] clause of the
    caller can dispatch on. *)
Inductive exn_class :=
  | KSubmitedTooSoon | KIO | KOS | KShutil | KBadZip | KUnsafeArchive
  | KValue | KConfig | KNoCourse | KCalledProcess | KSocket | KSSH.

Definition class_of (e : exn) : exn_class :=
  match e with
  | SubmitedTooSoonError _ => KSubmitedTooSoon
  | IOError => KIO
  | OSError => KOS
  | ShutilError => KShutil
  | BadZipfile => KBadZip
  | UnsafeArchiveRejected => KUnsafeArchive
  | ValueError => KValue
  | NoSectionError _ | DuplicateSectionError _ => KConfig
  | NoCourseError _ => KNoCourse
  | CalledProcessError _ => KCalledProcess
  | SocketError => KSocket
  | SSHException => KSSH
  end.

(** ** Primitive effects *)

Inductive event :=
  | EvMakedirs (p : list string)
  | EvCopyfile (src dst : list string)
  | EvWriteConfig (p : list string)
  | EvUnzip (archive dest : list string)
  | EvExtract (dest : list string) (name : string)
  | EvRmtree (p : list string)
  | EvMkdtemp (p : list string)
  | EvMkstemp (p : list string)
  | EvZipWrite (bundle : list string) (arcname : string) (src : list string)
  | EvExec (argv : list string) (cwd : list string)
  | EvCommander (workspace : list string)
  | EvLog (level fmt : string) (arg : list string)
  | EvPrint (fmt : string) (args : list (list string))
  | EvLockAcquire (assignment : string)
  | EvLockRelease (assignment : string)
  | EvConnect (host : string) (port : Z)
  | EvStartClient
  | EvLoadKey (keyfile : list string)
  | EvAuth (username : string)
  | EvSftpOpen
  | EvSftpPut (local remote : list string)
  | EvTransportClose
  | EvNow.

Record world := World {
  fs : gmap (list string) node;
  trace : list event
}.

Definition emit (e : event) (w : world) : world :=
  World (fs w) (trace w ++ [e]).

Definition set_fs (f : gmap (list string) node -> gmap (list string) node)
    (w : world) : world :=
  World (f (fs w)) (trace w).

(** ** The state-and-exception monad *)

Inductive result (A : Type) :=
  | Ok (a : A)
  | Raise (e : exn).
Arguments Ok {A} a.
Arguments Raise {A} e.

Definition M (A : Type) : Type := world -> result A * world.

Definition ret {A} (a : A) : M A := fun w => (Ok a, w).

Definition raise {A} (e : exn) : M A := fun w => (Raise e, w).

Definition bind {A B} (m : M A) (k : A -> M B) : M B :=
  fun w =>
    match m w with
    | (Ok a, w1) => k a w1
    | (Raise e, w1) => (Raise e, w1)
    end.

(** [try: body finally: cleanup]; an exception of the cleanup replaces the
    one of the body, as in Python. *)
Definition try_finally {A} (body : M A) (cleanup : M unit) : M A :=
  fun w =>
    match body w with
    | (r, w1) =>
        match cleanup w1 with
        | (Ok _, w2) => (r, w2)
        | (Raise e, w2) => (Raise e, w2)
        end
    end.

(** [try: body except: handler; raise]: the handler runs on any exception,
    which is then re-raised. *)
Definition try_except_reraise {A} (body : M A) (handler : M unit) : M A :=
  fun w =>
    match body w with
    | (Ok a, w1) => (Ok a, w1)
    | (Raise e, w1) =>
        match handler w1 with
        | (Ok _, w2) => (Raise e, w2)
        | (Raise e', w2) => (Raise e', w2)
        end
    end.

Declare Scope py_scope.
Delimit Scope py_scope with py.
Notation "x <- m ;; k" := (bind m (fun x => k))
  (at level 100, m at next level, right associativity) : py_scope.
Notation "m ;;; k" := (bind m (fun _ => k))
  (at level 100, right associativity) : py_scope.
Local Open Scope py_scope.

Definition get_fs : M (gmap (list string) node) := fun w => (Ok (fs w), w).

Definition log (e : event) : M unit := fun w => (Ok tt, emit e w).

Definition when (b : bool) (m : M unit) : M unit := if b then m else ret tt.

(** ** Time values *)

(** [time.struct_time] is a 9-tuple and Python compares it as a tuple. *)
Record struct_time := StructTime {
  tm_year : Z; tm_mon : Z; tm_mday : Z;
  tm_hour : Z; tm_min : Z; tm_sec : Z;
  tm_wday : Z; tm_yday : Z; tm_isdst : Z
}.

Definition as_tuple (t : struct_time) : list Z :=
  [tm_year t; tm_mon t; tm_mday t; tm_hour t; tm_min t; tm_sec t;
   tm_wday t; tm_yday t; tm_isdst t].

(** Python's [<] on tuples: the first differing position decides, a proper
    prefix is smaller. *)
Fixpoint tuple_lt (a b : list Z) : bool :=
  match a, b with
  | [], [] => false
  | [], _ :: _ => true
  | _ :: _, [] => false
  | x :: a', y :: b' => if x =? y then tuple_lt a' b' else x <? y
  end.

Fixpoint tuple_le (a b : list Z) : bool :=
  match a, b with
  | [], _ => true
  | _ :: _, [] => false
  | x :: a', y :: b' => if x =? y then tuple_le a' b' else x <? y
  end.

Definition st_lt (a b : struct_time) : bool := tuple_lt (as_tuple a) (as_tuple b).
Definition st_gt (a b : struct_time) : bool := tuple_lt (as_tuple b) (as_tuple a).
Definition st_le (a b : struct_time) : bool := tuple_le (as_tuple a) (as_tuple b).

(** ** The course configuration and the environment *)

(** [config.CourseConfig], already parsed.  [datetime.timedelta] and
    [datetime.datetime] values are exact integer counts of microseconds. *)
Record CourseConfig := {
  root_path : list string;
  storer_username : string;
  storer_hostname : string;
  storer_sshid : list string;
  upload_active_interval : struct_time * struct_time;
  assignment_machine : string -> string;      (* assignments().get(a, 'Machine') *)
  assignment_timedelta : string -> Z;         (* assignments().timedelta(a) *)
  tests_path : list string -> string -> list string;
  vmcfg_get : string -> string -> string;     (* get(section, option) *)
  vmcfg_get_file : string -> string -> list string;
  tester_login_username : string -> string;
  tester_hostname : string -> string;
  tester_queue_path : string -> list string
}.

(** Everything the code obtains from outside itself.  The oracles are
    indexed by the number of primitive effects performed so far. *)
Class Env := {
  io_fault : nat -> bool;            (* does the next primitive fail? *)
  exit_status : nat -> Z;            (* exit status of the next child process *)
  rand_name : nat -> string;         (* random part of the next temporary name *)
  clock : nat -> Z;                  (* datetime.datetime.now() *)
  strftime_now : nat -> string;      (* time.strftime(config.DATE_FORMAT) *)
  strptime : string -> option struct_time;  (* with config.DATE_FORMAT *)
  strftime : struct_time -> string;         (* with config.DATE_FORMAT *)
  str_timedelta : Z -> string;              (* str(datetime.timedelta) *)
  course_config : string -> option CourseConfig;
  (* paths.VmcheckerPaths(root) *)
  dir_submission_root : list string -> string -> string -> list string;
  dir_backup : list string -> list string;
  dir_unchecked : list string -> list string;
  dir_submission_results : list string -> list string;
  config_file : list string -> list string;
  abspath : list string -> list string -> list string;
  (* submissions.Submissions(vmpaths) *)
  submission_exists :
    list string -> string -> string -> gmap (list string) node -> bool;
  get_upload_time :
    list string -> string -> string -> gmap (list string) node -> option Z;
  (* vmcheckerpaths of the tester machine *)
  dir_tester_unzip_tmp : list string;
  dir_queue : list string
}.

(** ** Pure operations on the directory tree *)

Abbreviation tree :=
  (@gmap (list string) (@list_eq_dec string String.eq_dec)
     (@list_countable string String.eq_dec String.countable) node).

(** All the prefixes of a path, the path itself included. *)
Fixpoint inits (p : list string) : list (list string) :=
  match p with
  | [] => [[]]
  | x :: q => [] :: map (cons x) (inits q)
  end.

Definition is_dir (m : tree) (p : list string) : bool :=
  match m !! p with Some Dir => true | _ => false end.

Definition is_file (m : tree) (p : list string) : bool :=
  match m !! p with Some (File _) => true | _ => false end.

Definition path_exists (m : tree) (p : list string) : bool :=
  match m !! p with Some _ => true | None => false end.

(** Can [open(p, 'w')] succeed: the parent is a directory and [p] is not. *)
Definition writable (m : tree) (p : list string) : bool :=
  is_dir m (removelast p) && negb (is_dir m p).

(** [os.makedirs]: every missing directory on the way becomes one. *)
Definition mkdirs (p : list string) (m : tree) : tree :=
  foldr (fun q acc => <[q := Dir]> acc) m (inits p).

(** [shutil.rmtree]: the directory and everything below it disappear. *)
Definition remove_tree (p : list string) (m : tree) : tree :=
  filter (fun kv => ¬ p `prefix_of` kv.1) m.

(** The components of a member name: split on the slash. *)
Fixpoint split_slash (s : string) : list string :=
  match s with
  | EmptyString => [EmptyString]
  | String c s' =>
      if Ascii.eqb c "/"%char then EmptyString :: split_slash s'
      else match split_slash s' with
           | [] => [String c EmptyString]
           | h :: t => String c h :: t
           end
  end.

Definition is_absolute (name : string) : bool :=
  match name with
  | String c _ => Ascii.eqb c "/"%char
  | EmptyString => false
  end.

Definition has_dotdot (name : string) : bool :=
  existsb (String.eqb "..") (split_slash name).

(** A member name that would leave the directory it is expanded into. *)
Definition unsafe_name (name : string) : bool :=
  is_absolute name || has_dotdot name.

(** The components a member is stored under: empty and [.] segments drop. *)
Definition segments (name : string) : list string :=
  filter (fun s => s ≠ "" ∧ s ≠ ".") (split_slash name).

(** Writing one member below [dest]: its directories, then the file. *)
Definition extract_member (dest : list string) (name : string) (c : content)
    (m : tree) : tree :=
  match segments name with
  | [] => m
  | segs =>
      <[dest ++ segs := File c]>
        (foldr (fun q acc => <[dest ++ q := Dir]> acc) m (inits (removelast segs)))
  end.

Definition members_of (n : option node) : list (string * content) :=
  match n with
  | Some (File (Zip es)) => es
  | _ => []
  end.

(** ** Primitive operations *)

Section Primitives.
Context `{X : Env}.

(** A primitive effect: it is recorded, and it fails with [err] when the
    environment says so. *)
Definition prim {A} (e : event) (err : exn) (body : M A) : M A :=
  fun w =>
    if io_fault (length (trace w)) then (Raise err, emit e w)
    else body (emit e w).

Definition modify (f : tree -> tree) : M unit := fun w => (Ok tt, set_fs f w).

Fixpoint for_each {A} (l : list A) (f : A -> M unit) : M unit :=
  match l with
  | [] => ret tt
  | x :: l' => f x ;;; for_each l' f
  end.

Definition os_path_exists (p : list string) : M bool :=
  m <- get_fs ;; ret (path_exists m p).

Definition os_makedirs (p : list string) : M unit :=
  prim (EvMakedirs p) OSError (
    m <- get_fs ;;
    if path_exists m p then raise OSError
    else if existsb (is_file m) (inits p) then raise OSError
    else modify (mkdirs p)).

Definition shutil_copyfile (src dst : list string) : M unit :=
  prim (EvCopyfile src dst) IOError (
    m <- get_fs ;;
    if bool_decide (src = dst) then raise ShutilError
    else match m !! src with
         | Some (File c) =>
             if writable m dst then modify (<[dst := File c]>)
             else raise IOError
         | _ => raise IOError
         end).

(** [with open(p, 'w') as handle: cfg.write(handle)] *)
Definition write_config (p : list string) (cfg : gmap string (gmap string string))
    : M unit :=
  prim (EvWriteConfig p) IOError (
    m <- get_fs ;;
    if writable m p then modify (<[p := File (Config cfg)]>)
    else raise IOError).

Definition shutil_rmtree (p : list string) : M unit :=
  prim (EvRmtree p) OSError (
    m <- get_fs ;;
    if is_dir m p then modify (remove_tree p) else raise OSError).

(** [tempfile.mkdtemp(prefix, dir)]: the name the library settles on is the
    environment's; no usable name is an error. *)
Definition mkdtemp (prefix : string) (dir : list string) : M (list string) :=
  fun w =>
    let name := dir ++ [prefix +:+ rand_name (length (trace w))] in
    prim (EvMkdtemp name) OSError (
      m <- get_fs ;;
      if path_exists m name then raise IOError
      else if is_dir m dir then modify (<[name := Dir]>) ;;; ret name
      else raise OSError) w.

(** [tempfile.mkstemp(suffix, prefix, dir)]: an empty file is created; the
    descriptor is identified with the path it was opened on. *)
Definition mkstemp (suffix prefix : string) (dir : list string)
    : M (list string) :=
  fun w =>
    let name := dir ++ [prefix +:+ rand_name (length (trace w)) +:+ suffix] in
    prim (EvMkstemp name) OSError (
      m <- get_fs ;;
      if path_exists m name then raise IOError
      else if is_dir m dir then modify (<[name := File (Raw "")]>) ;;; ret name
      else raise OSError) w.

(** [subprocess.Popen(argv, cwd=cwd).wait()]: the exit status is returned,
    not checked. *)
Definition popen_wait (argv : list string) (cwd : list string) : M Z :=
  fun w =>
    let status := exit_status (length (trace w)) in
    prim (EvExec argv cwd) OSError (
      m <- get_fs ;;
      if is_dir m cwd then ret status else raise OSError) w.

Definition with_lock {A} (assignment : string) (body : M A) : M A :=
  log (EvLockAcquire assignment) ;;;
  try_finally body (log (EvLockRelease assignment)).

End Primitives.

(** ** [ConfigParser.RawConfigParser] *)

Definition lower_ascii (c : ascii) : ascii :=
  let n := nat_of_ascii c in
  if ((65 <=? n) && (n <=? 90))%nat then ascii_of_nat (n + 32) else c.

Fixpoint lower (s : string) : string :=
  match s with
  | EmptyString => EmptyString
  | String c s' => String (lower_ascii c) (lower s')
  end.

Definition rbind {A B} (r : result A) (k : A -> result B) : result B :=
  match r with
  | Ok a => k a
  | Raise e => Raise e
  end.

Definition add_section (section : string)
    (cfg : gmap string (gmap string string))
    : result (gmap string (gmap string string)) :=
  if String.eqb (lower section) "default" then Raise ValueError
  else match cfg !! section with
       | Some _ => Raise (DuplicateSectionError section)
       | None => Ok (<[section := ∅]> cfg)
       end.

(** [set(section, option, value)]: the option name is lower-cased. *)
Definition cfg_set (section opt value : string)
    (cfg : gmap string (gmap string string))
    : result (gmap string (gmap string string)) :=
  match cfg !! section with
  | None => Raise (NoSectionError section)
  | Some opts => Ok (<[section := <[lower opt := value]> opts]> cfg)
  end.

Definition cfg_get (section opt : string)
    (cfg : gmap string (gmap string string)) : option string :=
  match cfg !! section with
  | None => None
  | Some opts => opts !! lower opt
  end.

(** ** The [paths] module *)

(** Modelled from the spec: the [paths] module is not among the sources at
    hand.  The three compartments of a backup directory are the ones of the
    spec's backup directory layout: [archive/], [submission-config] and
    [archive.zip]. *)
Definition dir_submission_expanded_archive (d : list string) : list string :=
  d ++ ["archive"].

Definition submission_config_file (d : list string) : list string :=
  d ++ ["submission-config"].

Definition submission_archive_file (d : list string) : list string :=
  d ++ ["archive.zip"].

Definition path_to_string (p : list string) : string :=
  foldr (fun c acc => "/" +:+ c +:+ acc) "" p.

Definition basename (p : list string) : string :=
  match last p with
  | Some x => x
  | None => ""
  end.

Definition dquote : string := String "034"%char "".
Definition newline : string := String "010"%char "".

(** ** [ziputil] *)

Section Ziputil.
Context `{X : Env}.

(** Modelled from the spec: [ziputil.unzip_safely] is not among the sources
    at hand.  The spec has it reject an archive with a member whose name is
    absolute or has a [..] segment, before anything is expanded
    ([UnsafeArchiveRejected]: the offending submission is not expanded, no
    partial expansion), and otherwise expand the members into the
    destination. *)
Definition unzip_safely (archive_filename destination : list string) : M unit :=
  prim (EvUnzip archive_filename destination) IOError (
    m <- get_fs ;;
    match m !! archive_filename with
    | Some (File (Zip members)) =>
        if existsb (fun e => unsafe_name e.1) members
        then raise UnsafeArchiveRejected
        else if is_dir m (removelast destination) && negb (is_file m destination)
        then
          modify (<[destination := Dir]>) ;;;
          for_each members (fun e =>
            prim (EvExtract destination e.1) IOError
              (modify (extract_member destination e.1 e.2)))
        else raise IOError
    | Some (File _) => raise BadZipfile
    | _ => raise IOError
    end).

(** Modelled from the spec: [ziputil.create_zip] is not among the sources
    at hand.  The bundle is assembled from the manifest of (destination
    name, source path) pairs, one member per pair, in order; a source that
    cannot be read aborts the assembly where it stands. *)
Definition zip_write (handler : list string) (e : string * list string)
    : M unit :=
  prim (EvZipWrite handler e.1 e.2) IOError (
    m <- get_fs ;;
    match m !! e.2 with
    | Some (File c) =>
        modify (<[handler := File (Zip (members_of (m !! handler) ++ [(e.1, c)]))]>)
    | _ => raise OSError
    end).

Definition create_zip (handler : list string)
    (file_list : list (string * list string)) : M unit :=
  modify (<[handler := File (Zip [])]>) ;;;
  for_each file_list (zip_write handler).

End Ziputil.

(** ** [vmchecker/submit.py] *)

Section Submit.
Context `{X : Env}.

Definition lift {A} (r : result A) : M A := fun w => (r, w).

(** [config.CourseConfig(CourseList().course_config(course_id))] *)
Definition load_course_config (course_id : string) : M CourseConfig :=
  match course_config course_id with
  | Some vmcfg => ret vmcfg
  | None => raise (NoCourseError course_id)
  end.

Definition submission_config
    (user assignment course_id upload_time : string)
    (storer_result_dir storer_username storer_hostname : string)
    : result (gmap string (gmap string string)) :=
  rbind (add_section "Assignment" ∅) (fun sbcfg =>
  rbind (cfg_set "Assignment" "User" user sbcfg) (fun sbcfg =>
  rbind (cfg_set "Assignment" "Assignment" assignment sbcfg) (fun sbcfg =>
  rbind (cfg_set "Assignment" "UploadTime" upload_time sbcfg) (fun sbcfg =>
  rbind (cfg_set "Assignment" "CourseID" course_id sbcfg) (fun sbcfg =>
  rbind (cfg_set "Assignment" "ResultsDest" storer_result_dir sbcfg) (fun sbcfg =>
  rbind (cfg_set "Assignment" "RemoteUsername" storer_username sbcfg) (fun sbcfg =>
  rbind (cfg_set "Assignment" "RemoteHostname" storer_hostname sbcfg) (fun sbcfg =>
  Ok sbcfg)))))))).

Definition submission_backup_prefix
    (course_id assignment user upload_time : string) : string :=
  course_id +:+ "_" +:+ assignment +:+ "_" +:+ user +:+ "_" +:+ upload_time +:+ "_".

Definition submission_backup (back_dir archive_filename : list string)
    (sbcfg : gmap string (gmap string string)) : M unit :=
  let back_arc := dir_submission_expanded_archive back_dir in
  let back_cfg := submission_config_file back_dir in
  let back_zip := submission_archive_file back_dir in
  (* make sure the directory path exists *)
  present <- os_path_exists back_dir ;;
  when (negb present) (os_makedirs back_dir) ;;;
  (* copy the (unmodified) archive *)
  shutil_copyfile archive_filename back_zip ;;;
  (* write the config *)
  write_config back_cfg sbcfg ;;;
  (* unzip the archive, but check if it has absolute paths or '..' *)
  unzip_safely archive_filename back_arc ;;;
  log (EvLog "info" "Stored submission in temporary directory %s" back_dir).

Definition submission_git_commit (dest : list string) (user assignment : string)
    : M unit :=
  _ <- popen_wait ["git"; "add"; "--force"; "."] dest ;;
  _ <- popen_wait ["git"; "commit"; "--allow-empty"; ".";
                   "-m " +:+ dquote +:+ "Updated " +:+ user +:+
                   "' submission for " +:+ assignment +:+ dquote] dest ;;
  ret tt.

Definition save_submission_in_storer (archive_filename : list string)
    (user assignment course_id upload_time : string) : M unit :=
  vmcfg <- load_course_config course_id ;;
  let root := root_path vmcfg in
  let sbroot := dir_submission_root root assignment user in
  sbcfg <- lift (submission_config user assignment course_id upload_time
                   (path_to_string (dir_submission_results sbroot))
                   (storer_username vmcfg) (storer_hostname vmcfg)) ;;
  (* a separate backup for each submission, parallel to the git repo *)
  let name_prefix :=
    submission_backup_prefix course_id assignment user upload_time in
  back_dir <- mkdtemp name_prefix (dir_backup root) ;;
  submission_backup back_dir archive_filename sbcfg ;;;
  (* commit in git this submission *)
  let git_dest := dir_submission_root root assignment user in
  with_lock assignment (
    (* cleanup any previously commited data *)
    present <- os_path_exists git_dest ;;
    when present (shutil_rmtree git_dest) ;;;
    submission_backup git_dest archive_filename sbcfg ;;;
    submission_git_commit (dir_submission_expanded_archive git_dest)
      user assignment).

Definition rel_file_list (vmcfg : CourseConfig) (assignment user : string)
    : list (string * list string) :=
  let root := root_path vmcfg in
  let sbroot := dir_submission_root root assignment user in
  let machine := assignment_machine vmcfg assignment in
  [] ++ [ ("build.sh", vmcfg_get_file vmcfg machine "BuildScript");
          ("run.sh", vmcfg_get_file vmcfg machine "RunScript") ]
     ++ [ ("archive.zip", submission_archive_file sbroot);
          ("tests.zip", tests_path vmcfg root assignment);
          ("submission-config", submission_config_file sbroot);
          ("course-config", config_file root) ].

Definition create_testing_bundle (user assignment course_id : string)
    : M (list string) :=
  vmcfg <- load_course_config course_id ;;
  let root := root_path vmcfg in
  let file_list :=
    map (fun e => (e.1, abspath root e.2)) (rel_file_list vmcfg assignment user) in
  (* builds archive with configuration *)
  with_lock assignment (
    (* creates the zip archive with an unique name *)
    bundle_path <- mkstemp ".zip"
                     (course_id +:+ "_" +:+ assignment +:+ "_" +:+ user +:+ "_")
                     (dir_unchecked root) ;;
    log (EvLog "info" "Creating bundle package %s" bundle_path) ;;;
    try_except_reraise
      (create_zip bundle_path file_list)
      (log (EvLog "error" "Failed to create zip archive %s" bundle_path)) ;;;
    ret bundle_path).

Definition _DEFAULT_SSH_PORT : Z := 22.

(** A step of the network conversation. *)
Definition net (e : event) (err : exn) : M unit := prim e err (ret tt).

Definition ssh_bundle (bundle_path : list string) (vmcfg : CourseConfig)
    (assignment : string) : M unit :=
  let machine := assignment_machine vmcfg assignment in
  let tester := vmcfg_get vmcfg machine "Tester" in
  let tester_username := tester_login_username vmcfg tester in
  let tester_hostname := tester_hostname vmcfg tester in
  let tester_queuepath := tester_queue_path vmcfg tester in
  net (EvConnect tester_hostname _DEFAULT_SSH_PORT) SocketError ;;;
  try_finally (
    net EvStartClient SSHException ;;;
    prim (EvLoadKey (storer_sshid vmcfg)) IOError (
      m <- get_fs ;;
      if is_file m (storer_sshid vmcfg) then ret tt else raise IOError) ;;;
    net (EvAuth tester_username) SSHException ;;;
    net EvSftpOpen SSHException ;;;
    prim (EvSftpPut bundle_path (tester_queuepath ++ [basename bundle_path]))
      IOError (
      m <- get_fs ;;
      if is_file m bundle_path then ret tt else raise IOError))
    (log EvTransportClose).

Definition datetime_now : M Z :=
  fun w => (Ok (clock (length (trace w))), emit EvNow w).

Definition time_strftime_now : M string :=
  fun w => (Ok (strftime_now (length (trace w))), emit EvNow w).

Definition time_strptime (s : string) : M struct_time :=
  match strptime s with
  | Some t => ret t
  | None => raise ValueError
  end.

Definition submitted_too_soon (assignment user : string) (vmcfg : CourseConfig)
    : M bool :=
  let root := root_path vmcfg in
  m <- get_fs ;;
  if negb (submission_exists root assignment user m) then ret false
  else
    match get_upload_time root assignment user m with
    | None => ret false
    | Some upload_time =>
        let remaining := upload_time in
        let remaining := remaining + assignment_timedelta vmcfg assignment in
        now <- datetime_now ;;
        let remaining := remaining - now in
        ret (0 <? remaining)
    end.

Definition queue_for_testing (assignment user course_id : string) : M unit :=
  vmcfg <- load_course_config course_id ;;
  bundle_path <- create_testing_bundle user assignment course_id ;;
  ssh_bundle bundle_path vmcfg assignment.

Definition window_message (active_start active_stop : struct_time) : string :=
  "You can only submit homework between " +:+ strftime active_start +:+ " and "
    +:+ strftime active_stop +:+ ".".

Definition too_fast_message (delta : Z) : string :=
  "You are submitting too fast." +:+ newline +:+
  "                                   Please allow " +:+ str_timedelta delta +:+
  " between submissions".

Definition submit (archive_filename : list string)
    (assignment user course_id : string)
    (skip_time_check : bool) (forced_upload_time : option string) : M unit :=
  vmcfg <- load_course_config course_id ;;
  choice <- match forced_upload_time with
            | Some forced => ret (true, forced)
            | None => now <- time_strftime_now ;; ret (skip_time_check, now)
            end ;;
  let skip_time_check := choice.1 in
  let upload_time_str := choice.2 in
  (* check if upload is active at this time *)
  upload_time <- time_strptime upload_time_str ;;
  let active_start := (upload_active_interval vmcfg).1 in
  let active_stop := (upload_active_interval vmcfg).2 in
  if st_lt upload_time active_start || st_gt upload_time active_stop
  then raise (SubmitedTooSoonError (window_message active_start active_stop))
  else
    (* checks time difference *)
    too_soon <- (if negb skip_time_check
                 then submitted_too_soon assignment user vmcfg
                 else ret false) ;;
    if too_soon
    then raise (SubmitedTooSoonError
                  (too_fast_message (assignment_timedelta vmcfg assignment)))
    else
      save_submission_in_storer archive_filename user assignment course_id
        upload_time_str ;;;
      queue_for_testing assignment user course_id.

End Submit.

(** ** [bin/queue_manager.py] *)

Section QueueManager.
Context `{X : Env}.

(** What the [unzip] program does to the tree and the status it ends with:
    a readable archive is expanded below the directory given with [-d]
    unless the environment makes the process fail. *)
Definition unzip_program (location archive : list string) (status : Z)
    (m : tree) : Z * tree :=
  match m !! archive with
  | Some (File (Zip members)) =>
      if status =? 0
      then (0, foldl (fun acc e => extract_member location e.1 e.2 acc) m
                  (filter (fun e => unsafe_name e.1 = false) members))
      else (status, m)
  | _ => (if status =? 0 then 9 else status, m)
  end.

(** [subprocess.check_call(argv)]: a non-zero exit status is an exception. *)
Definition check_call (argv : list string) (program : Z -> tree -> Z * tree)
    : M unit :=
  fun w =>
    let status := exit_status (length (trace w)) in
    prim (EvExec argv []) OSError (
      m <- get_fs ;;
      let out := program status m in
      modify (fun _ => out.2) ;;;
      if out.1 =? 0 then ret tt else raise (CalledProcessError out.1)) w.

Definition _process_job (path : list string) (name : string) : M unit :=
  location <- mkdtemp "vmchecker-" dir_tester_unzip_tmp ;;
  let archive := path ++ [name] in
  log (EvPrint "Expanding archive `%s' at `%s'." [archive; location]) ;;;
  check_call ["unzip"; "-d"; path_to_string location; path_to_string archive]
    (unzip_program location archive) ;;;
  log (EvPrint "Cleaning `%s'" [location]) ;;;
  shutil_rmtree location.

(** A pyinotify event: the watched directory and the name of the file. *)
Record inotify_event := { ev_path : list string; ev_name : string }.

Definition process_IN_CLOSE_WRITE (event : inotify_event) : M unit :=
  _process_job (ev_path event) (ev_name event).

End QueueManager.

(** ** Vocabulary of the statements *)

(** The table [submission_config] builds, in closed form. *)
Definition descriptor (user assignment course_id upload_time : string)
    (storer_result_dir storer_username storer_hostname : string)
    : gmap string (gmap string string) :=
  {[ "Assignment" :=
       <["remotehostname" := storer_hostname]>
      (<["remoteusername" := storer_username]>
      (<["resultsdest" := storer_result_dir]>
      (<["courseid" := course_id]>
      (<["uploadtime" := upload_time]>
      (<["assignment" := assignment]>
      (<["user" := user]> ∅)))))) ]}.

Section Vocabulary.
Context `{X : Env}.

(** The upload time [submit] settles on when called in world [w]: the
    forced one, or the current time. *)
Definition chosen_upload_time (forced : option string) (w : world) : string :=
  match forced with
  | Some t => t
  | None => strftime_now (length (trace w))
  end.

(** The world once [submit] has settled on the upload time. *)
Definition after_clock (forced : option string) (w : world) : world :=
  match forced with
  | Some _ => w
  | None => emit EvNow w
  end.

(** A forced upload time switches the rate limiter off. *)
Definition effective_skip (skip_time_check : bool) (forced : option string)
    : bool :=
  match forced with
  | Some _ => true
  | None => skip_time_check
  end.

(** The statements of [submission_backup] that come before the expansion. *)
Definition backup_prologue (back_dir archive_filename : list string)
    (sbcfg : gmap string (gmap string string)) : M unit :=
  present <- os_path_exists back_dir ;;
  when (negb present) (os_makedirs back_dir) ;;;
  shutil_copyfile archive_filename (submission_archive_file back_dir) ;;;
  write_config (submission_config_file back_dir) sbcfg.

End Vocabulary.

(** ** A concrete course, used to run the code *)

Module Demo.

Definition t (d h : Z) : struct_time := StructTime 2024 1 d h 0 0 0 d (-1).

Definition cs101 : CourseConfig := {|
  root_path := ["srv"];
  storer_username := "storer";
  storer_hostname := "storer.example.org";
  storer_sshid := ["srv"; "id_rsa"];
  upload_active_interval := (t 1 0, t 31 0);
  assignment_machine := fun _ => "vm1";
  assignment_timedelta := fun _ => 3600000000;
  tests_path := fun root a => root ++ ["tests"; a +:+ ".zip"];
  vmcfg_get := fun _ _ => "tester1";
  vmcfg_get_file := fun _ o => ["srv"; "scripts"; o];
  tester_login_username := fun _ => "tester";
  tester_hostname := fun _ => "tester.example.org";
  tester_queue_path := fun _ => ["queue"]
|}.

(** 10 January 2024, 10:00:00, and earlier that morning, in microseconds
    since the epoch. *)
Definition ten : Z := 1704880800000000.
Definition half_past_nine : Z := ten - 1800000000.

(** No fault, every child process exits with [child_status], it is ten
    o'clock, and the last recorded upload time is [last]. *)
Definition env (child_status : Z) (last : option Z) : Env := {|
  io_fault := fun _ => false;
  exit_status := fun _ => child_status;
  rand_name := fun _ => "x7";
  clock := fun _ => ten;
  strftime_now := fun _ => "2024.01.10 10:00:00";
  strptime := fun s =>
    if String.eqb s "2024.01.10 10:00:00" then Some (t 10 10)
    else if String.eqb s "2024.01.01 00:00:00" then Some (t 1 0)
    else if String.eqb s "2024.01.31 00:00:00" then Some (t 31 0)
    else if String.eqb s "2024.02.01 00:00:00" then Some (StructTime 2024 2 1 0 0 0 3 32 (-1))
    else None;
  strftime := fun s =>
    if tm_mday s =? 1 then "2024.01.01 00:00:00" else "2024.01.31 00:00:00";
  str_timedelta := fun _ => "1:00:00";
  course_config := fun c => if String.eqb c "cs101" then Some cs101 else None;
  dir_submission_root := fun root a u => root ++ ["repo"; a; u];
  dir_backup := fun root => root ++ ["back"];
  dir_unchecked := fun root => root ++ ["unchecked"];
  dir_submission_results := fun d => d ++ ["results"];
  config_file := fun root => root ++ ["config"];
  abspath := fun root p => p;
  submission_exists := fun root a u m =>
    path_exists m (submission_config_file (root ++ ["repo"; a; u]));
  get_upload_time := fun _ _ _ _ => last;
  dir_tester_unzip_tmp := ["tmp"];
  dir_queue := ["queue"]
|}.

Definition hw1 : content := Zip [("main.c", Raw "int main(){}"); ("lib/util.c", Raw "")].
Definition evil : content := Zip [("main.c", Raw "int main(){}"); ("../../etc/passwd", Raw "root")].

Definition dirs (l : list (list string)) : tree :=
  foldr (fun p acc => <[p := Dir]> acc) ∅ l.

(** The storer machine before the first submission. *)
Definition storer (upload : content) : world :=
  World (<[["upload"; "hw.zip"] := File upload]>
         (<[["srv"; "scripts"; "BuildScript"] := File (Raw "make")]>
         (<[["srv"; "scripts"; "RunScript"] := File (Raw "./run")]>
         (<[["srv"; "tests"; "lab1.zip"] := File (Zip [("t1", Raw "1")])]>
         (<[["srv"; "config"] := File (Raw "[vmchecker]")]>
         (<[["srv"; "id_rsa"] := File (Raw "key")]>
         (dirs [[]; ["upload"]; ["srv"]; ["srv"; "back"]; ["srv"; "repo"];
                ["srv"; "repo"; "lab1"]; ["srv"; "unchecked"];
                ["srv"; "scripts"]; ["srv"; "tests"]])))))))
        [].

(** The tester machine with one bundle in its queue. *)
Definition tester (bundle : content) : world :=
  World (<[["queue"; "b.zip"] := File bundle]> (dirs [[]; ["tmp"]; ["queue"]])) [].

(** The storer machine once alice has a canonical submission for lab1,
    uploaded at [stamp]. *)
Definition resubmit (stamp : string) : world :=
  set_fs (fun m =>
    <[["srv"; "repo"; "lab1"; "alice"; "submission-config"] :=
        File (Config (descriptor "alice" "lab1" "cs101" stamp
                        "/srv/repo/lab1/alice/results" "storer"
                        "storer.example.org"))]>
    (<[["srv"; "repo"; "lab1"; "alice"] := Dir]> m)) (storer hw1).

Definition upload : list string := ["upload"; "hw.zip"].

(** The storer machine with alice's submission for lab1 stored, and the
    tests of lab1 missing. *)
Definition stored_without_tests : world :=
  set_fs (delete ["srv"; "tests"; "lab1.zip"])
    (@save_submission_in_storer (env 0 None) upload "alice" "lab1" "cs101"
       "2024.01.10 10:00:00" (storer hw1)).2.

Definition bundle : list string := ["srv"; "unchecked"; "cs101_lab1_alice_x7.zip"].

Definition workspace : list string := ["tmp"; "vmchecker-x7"].

End Demo.

(** ** Classes of events *)

(** The paths a backup write touches before it expands anything: the
    directories leading to the backup directory, the raw copy and the
    descriptor. *)
Definition backup_footprint (back_dir q : list string) : Prop :=
  q `prefix_of` back_dir \/ q = submission_archive_file back_dir
  \/ q = submission_config_file back_dir.

Definition not_extract (e : event) : Prop :=
  match e with
  | EvExtract _ _ => False
  | _ => True
  end.

(** What storing a submission does. *)
Definition store_event (e : event) : bool :=
  match e with
  | EvMakedirs _ | EvCopyfile _ _ | EvWriteConfig _ | EvUnzip _ _
  | EvExtract _ _ | EvRmtree _ | EvMkdtemp _ | EvExec _ _ | EvLog _ _ _
  | EvLockAcquire _ | EvLockRelease _ => true
  | _ => false
  end.

(** What building a bundle does that nothing else does. *)
Definition build_event (e : event) : bool :=
  match e with
  | EvMkstemp _ | EvZipWrite _ _ _ => true
  | _ => false
  end.

(** What dispatching a bundle does. *)
Definition dispatch_event (e : event) : bool :=
  match e with
  | EvConnect _ _ | EvStartClient | EvLoadKey _ | EvAuth _ | EvSftpOpen
  | EvSftpPut _ _ | EvTransportClose => true
  | _ => false
  end.

Definition bundle_event (e : event) : bool := build_event e || dispatch_event e.

Definition commander_event (e : event) : bool :=
  match e with
  | EvCommander _ => true
  | _ => false
  end.

Definition git_commit_event (e : event) : bool :=
  match e with
  | EvExec ("git" :: "commit" :: _) _ => true
  | _ => false
  end.

(** ** What a run changes *)

(** The events a run from [w] to [w'] has added to the trace. *)
Definition new_events (w w' : world) : list event :=
  drop (length (trace w)) (trace w').

(** [rel D P w w']: from [w] to [w'] the tree changed only at paths in [D],
    and the trace grew by events that all satisfy [P]. *)
Definition rel (D : list string -> Prop) (P : event -> Prop) (w w' : world)
    : Prop :=
  (forall p, ¬ D p -> fs w' !! p = fs w !! p) /\
  (exists t, trace w' = trace w ++ t /\ Forall P t).

(** Every run of [m] is within [rel D P], whatever its result. *)
Definition steps {A} (D : list string -> Prop) (P : event -> Prop) (m : M A)
    : Prop :=
  forall w, rel D P w (m w).2.

(** [m] never raises an exception of class [SubmitedTooSoonError]. *)
Definition quiet {A} (m : M A) : Prop :=
  forall w e w', m w = (Raise e, w') -> class_of e ≠ KSubmitedTooSoon.

(** ** More classes of events *)

Definition lock_event (e : event) : bool :=
  match e with
  | EvLockAcquire _ | EvLockRelease _ => true
  | _ => false
  end.

Definition clock_event (e : event) : bool :=
  match e with
  | EvNow => true
  | _ => false
  end.

(** What only the store does: writing backups and running git. *)
Definition store_write_event (e : event) : bool :=
  match e with
  | EvMakedirs _ | EvCopyfile _ _ | EvWriteConfig _ | EvUnzip _ _
  | EvExtract _ _ | EvRmtree _ | EvMkdtemp _ | EvExec _ _ => true
  | _ => false
  end.




(** What assembling a bundle does under the lock. *)
Definition assembly_event (e : event) : bool :=
  match e with
  | EvMkstemp _ | EvZipWrite _ _ _ | EvLog _ _ _ => true
  | _ => false
  end.

(** ** Runs made of a fixed sequence of steps *)

(** [one_event m e]: a run of [m] records [e] and does nothing else to the
    world. *)
Definition one_event (m : M unit) (e : event) : Prop :=
  forall w, exists r, m w = (r, emit e w).

(** [chain m es]: a run of [m] leaves the tree alone and records a prefix
    of [es], all of [es] when it returns normally. *)
Definition chain (m : M unit) (es : list event) : Prop :=
  forall w,
    fs (m w).2 = fs w /\
    exists mid, trace (m w).2 = trace w ++ mid /\ mid `prefix_of` es /\
                ((m w).1 = Ok tt -> mid = es).

(** ** [bin/initialise_course.py] *)

(** The script that prepares a machine for a course.  Its effects are of
    another kind than those of [submit.py] ([os.mkdir], [git init] with an
    environment of its own, an SQL script) and so are its exceptions; it
    gets its own state and exception type, over the same directory tree. *)
Module InitialiseCourse.

Inductive exn :=
  | OSError
  | CalledProcessError (status : Z)
  | TypeError
  | NoOptionError (opt : string)
  | OperationalError.

(** What a run does, in order: the calls that reach the system and the
    lines that are logged. *)
Inductive action :=
  | Mkdir (p : list string)
  | Info (fmt arg : string)
  | Error (fmt arg : string)
  | GitInit (git_dir : string)
  | ExecuteScript (db_path : list string).

Record state := State {
  files : tree;
  actions : list action
}.

Inductive outcome (A : Type) :=
  | Ok (a : A)
  | Raise (e : exn).
Arguments Ok {A} a.
Arguments Raise {A} e.

Definition IM (A : Type) : Type := state -> outcome A * state.

Definition ret {A} (a : A) : IM A := fun s => (Ok a, s).

Definition raise {A} (e : exn) : IM A := fun s => (Raise e, s).

Definition bind {A B} (m : IM A) (k : A -> IM B) : IM B :=
  fun s =>
    match m s with
    | (Ok a, s1) => k a s1
    | (Raise e, s1) => (Raise e, s1)
    end.

Definition record (a : action) (s : state) : state :=
  State (files s) (actions s ++ [a]).

Definition act (a : action) : IM unit := fun s => (Ok tt, record a s).

(** What the script reads from [misc], which is not among the sources, and
    what the machine answers: [db_file] is [None] for Python's [None];
    [repository] is the option [Repository] of the section [DEFAULT], when
    there is one; [git_init] is the [git init] process started with the
    given [GIT_DIR] on the given tree, which cannot be started ([None]) or
    ends with a status and a tree. *)
Record site := Site {
  tester_paths : list (list string);
  storer_paths : list (list string);
  db_file : option (list string);
  repository : option string;
  abs_path : string -> list string;
  mkdir_refused : nat -> bool;
  git_init : string -> nat -> tree -> option (Z * tree)
}.

Section Script.
Context (S : site).

(** [os.mkdir]: the parent has to be a directory and the path a new one. *)
Definition os_mkdir (p : list string) : IM unit :=
  fun s =>
    let s1 := record (Mkdir p) s in
    if mkdir_refused S (length (actions s)) then (Raise OSError, s1)
    else if path_exists (files s) p then (Raise OSError, s1)
    else if is_dir (files s) (removelast p)
    then (Ok tt, State (<[p := Dir]> (files s)) (actions s1))
    else (Raise OSError, s1).

Definition _mkdir_if_not_exist (path : list string) : IM unit :=
  fun s =>
    if negb (is_dir (files s) path) then os_mkdir path s
    else act (Info "Skipping existing directory %s" (path_to_string path)) s.

Fixpoint _create_paths (paths : list (list string)) : IM unit :=
  match paths with
  | [] => ret tt
  | path :: rest => bind (_mkdir_if_not_exist path) (fun _ => _create_paths rest)
  end.

Definition create_tester_paths : IM unit := _create_paths (tester_paths S).

Definition create_storer_paths : IM unit := _create_paths (storer_paths S).

(** [check_call(['git', 'init'], env=e)] with [e["GIT_DIR"]] set. *)
Definition check_call_git_init (git_dir : string) : IM unit :=
  fun s =>
    let s1 := record (GitInit git_dir) s in
    match git_init S git_dir (length (actions s)) (files s) with
    | None => (Raise OSError, s1)
    | Some (status, m) =>
        if status =? 0 then (Ok tt, State m (actions s1))
        else (Raise (CalledProcessError status), State m (actions s1))
    end.

Definition create_storer_git_repo : IM unit :=
  (* first make the destination directory *)
  bind (match repository S with
        | Some r => ret r
        | None => raise (NoOptionError "Repository")
        end) (fun rel_repo_path =>
  let abs_repo_path := abs_path S rel_repo_path in
  bind (_mkdir_if_not_exist abs_repo_path) (fun _ =>
  (* then, if missing, initialize a git repo in it *)
  let repo_path_git := abs_repo_path ++ [".git"] in
  fun s =>
    if negb (is_dir (files s) repo_path_git) then
      match check_call_git_init (path_to_string repo_path_git +:+ dquote) s with
      | (Raise (CalledProcessError _), s1) =>
          act (Error "cannot create git repo in %s"
                 (path_to_string repo_path_git)) s1
      | out => out
      end
    else ret tt s)).

(** [create_db_tables]: the database is opened, which creates the file,
    and the script that declares the three tables is run on it. *)
Definition create_db_tables (db_path : list string) : IM unit :=
  fun s =>
    let s1 := record (ExecuteScript db_path) s in
    if is_dir (files s) (removelast db_path) && negb (path_exists (files s) db_path)
    then (Ok tt, State (<[db_path := File (Raw "studenti teme note")]> (files s))
                   (actions s1))
    else (Raise OperationalError, s1).

(** [create_db]: the branch taken when there is no database file calls
    [create_db] itself with one argument, which a function of no parameter
    refuses with [TypeError]; the other branch logs. *)
Definition create_db : IM unit :=
  match db_file S with
  | None => raise TypeError
  | Some db_file =>
      act (Info "Skipping existing Sqlite3 DB file %s" (path_to_string db_file))
  end.

Definition main_storer : IM unit :=
  bind create_storer_paths (fun _ =>
  bind create_storer_git_repo (fun _ =>
  bind create_db (fun _ =>
  act (Info " -- storer init done setting up paths and db file." "")))).

Definition main_tester : IM unit :=
  bind create_tester_paths (fun _ =>
  act (Info " -- tester init done setting up paths and db file." "")).

End Script.

(** The actions a run added. *)
Definition new_actions (s s' : state) : list action :=
  drop (length (actions s)) (actions s').

Definition skipping (p : list string) : action :=
  Info "Skipping existing directory %s" (path_to_string p).

(** [tame m]: a run of [m] only adds actions, none of them the SQL script,
    and the exceptions that leave it are [OSError], [TypeError] and
    [NoOptionError]. *)
Definition tame {A} (m : IM A) : Prop :=
  forall s,
    (exists t, actions (m s).2 = actions s ++ t /\
               Forall (fun a => forall p, a ≠ ExecuteScript p) t) /\
    (forall e, (m s).1 = Raise e ->
       e = OSError \/ e = TypeError \/ exists o, e = NoOptionError o).

(** A machine with the two top directories in place. *)
Definition demo_site : site := {|
  tester_paths := [["vm"; "queue"]; ["vm"; "tmp"]];
  storer_paths := [["vm"; "repo"]; ["vm"; "back"]];
  db_file := Some ["vm"; "db.sqlite"];
  repository := Some "repo";
  abs_path := fun r => ["vm"; r];
  mkdir_refused := fun _ => false;
  git_init := fun _ _ m => Some (0, m)
|}.

Definition demo_state : state :=
  State (<[["vm"] := Dir]> (<[[] := Dir]> ∅)) [].

End InitialiseCourse.

(** * The model at work *)

Example unsafe_name_traversal : unsafe_name "../../etc/passwd" = true.
Proof. reflexivity. Qed.

Example unsafe_name_absolute : unsafe_name "/etc/passwd" = true.
Proof. reflexivity. Qed.

Example unsafe_name_inner_traversal : unsafe_name "src/../../x" = true.
Proof. reflexivity. Qed.

Example unsafe_name_plain : unsafe_name "lib/util..c" = false.
Proof. reflexivity. Qed.

Example segments_of_member : segments "./lib//util.c" = ["lib"; "util.c"].
Proof. reflexivity. Qed.

Example lower_option_name : lower "UploadTime" = "uploadtime".
Proof. reflexivity. Qed.

Example backup_prefix :
  submission_backup_prefix "SO" "1-minishell-linux" "Lucian Adrian Grijincu"
    "2010.03.05 01:08:54"
  = "SO_1-minishell-linux_Lucian Adrian Grijincu_2010.03.05 01:08:54_".
Proof. reflexivity. Qed.

Example struct_time_order :
  st_lt (Demo.t 10 10) (Demo.t 31 0) = true /\
  st_gt (Demo.t 10 10) (Demo.t 31 0) = false /\
  st_lt (Demo.t 1 0) (Demo.t 1 0) = false.
Proof. repeat split. Qed.

(** The first submission of alice goes through the whole pipeline. *)
Example first_submission_succeeds :
  (@submit (Demo.env 0 None) Demo.upload "lab1" "alice" "cs101" false None
     (Demo.storer Demo.hw1)).1 = Ok tt.
Proof. vm_compute. reflexivity. Qed.

(** The queue watcher on a bundle that expands: the workspace is gone. *)
Example process_job_cleans_up :
  let run := @_process_job (Demo.env 0 None) ["queue"] "b.zip"
               (Demo.tester Demo.hw1) in
  run.1 = Ok tt /\ path_exists (fs run.2) Demo.workspace = false.
Proof. split; vm_compute; reflexivity. Qed.

(** * Reasoning principles *)

Lemma rel_refl D P w : rel D P w w.
Proof.
  split; [done|]. exists []. by rewrite app_nil_r.
Qed.

Lemma rel_trans D P a b c : rel D P a b -> rel D P b c -> rel D P a c.
Proof.
  intros [Hf1 (t1 & Ht1 & HP1)] [Hf2 (t2 & Ht2 & HP2)]. split.
  - intros p Hp. rewrite Hf2, Hf1; done.
  - exists (t1 ++ t2). split.
    + by rewrite Ht2, Ht1, app_assoc.
    + by apply Forall_app.
Qed.

Lemma rel_weaken (D D' : list string -> Prop) (P P' : event -> Prop) w w' :
  (forall p, D p -> D' p) -> (forall e, P e -> P' e) ->
  rel D P w w' -> rel D' P' w w'.
Proof.
  intros HD HP [Hf (t & Ht & Hall)]. split.
  - intros p Hp. apply Hf. intros HDp. apply Hp, HD, HDp.
  - exists t. split; [done|]. eapply Forall_impl; eauto.
Qed.

Lemma rel_emit D (P : event -> Prop) e w : P e -> rel D P w (emit e w).
Proof.
  intros He. split; [done|]. exists [e]. split; [done|]. by constructor.
Qed.

Lemma rel_set_fs (D : list string -> Prop) P f w :
  (forall p, ¬ D p -> f (fs w) !! p = fs w !! p) -> rel D P w (set_fs f w).
Proof.
  intros Hf. split; [exact Hf|]. exists []. by rewrite app_nil_r.
Qed.

Lemma rel_new_events D P w w' :
  rel D P w w' -> Forall P (new_events w w').
Proof.
  intros [_ (t & Ht & Hall)]. unfold new_events.
  by rewrite Ht, drop_app_length.
Qed.

Lemma rel_fs D P w w' p : rel D P w w' -> ¬ D p -> fs w' !! p = fs w !! p.
Proof. intros [Hf _]. apply Hf. Qed.

Section StepRules.
Context `{X : Env}.
Variable D : list string -> Prop.
Variable P : event -> Prop.

Lemma steps_ret {A} (a : A) : steps D P (ret a).
Proof. intros w. apply rel_refl. Qed.

Lemma steps_raise {A} e : steps D P (@raise A e).
Proof. intros w. apply rel_refl. Qed.

Lemma steps_lift {A} (r : result A) : steps D P (lift r).
Proof. intros w. apply rel_refl. Qed.

Lemma steps_bind {A B} (m : M A) (k : A -> M B) :
  steps D P m -> (forall a, steps D P (k a)) -> steps D P (bind m k).
Proof.
  intros Hm Hk w. unfold bind. specialize (Hm w).
  destruct (m w) as [[a|e] w1]; simpl in *; [|done].
  eapply rel_trans; [exact Hm|apply Hk].
Qed.

Lemma steps_try_finally {A} (body : M A) cleanup :
  steps D P body -> steps D P cleanup -> steps D P (try_finally body cleanup).
Proof.
  intros Hb Hc w. unfold try_finally. specialize (Hb w).
  destruct (body w) as [r w1]. specialize (Hc w1).
  destruct (cleanup w1) as [[[]|e] w2]; simpl in *; eapply rel_trans; eauto.
Qed.

Lemma steps_try_except_reraise {A} (body : M A) handler :
  steps D P body -> steps D P handler ->
  steps D P (try_except_reraise body handler).
Proof.
  intros Hb Hc w. unfold try_except_reraise. specialize (Hb w).
  destruct (body w) as [[a|e] w1]; [done|]. specialize (Hc w1).
  destruct (handler w1) as [[[]|e'] w2]; simpl in *; eapply rel_trans; eauto.
Qed.

Lemma steps_log e : P e -> steps D P (log e).
Proof. intros He w. by apply rel_emit. Qed.

Lemma steps_when b m : steps D P m -> steps D P (when b m).
Proof. intros Hm. destruct b; [done|apply steps_ret]. Qed.

Lemma steps_for_each {A} (l : list A) f :
  (forall a, steps D P (f a)) -> steps D P (for_each l f).
Proof.
  intros Hf. induction l as [|a l IH]; simpl.
  - apply steps_ret.
  - apply steps_bind; [apply Hf|done].
Qed.

Lemma steps_with_lock {A} a (m : M A) :
  P (EvLockAcquire a) -> P (EvLockRelease a) ->
  steps D P m -> steps D P (with_lock a m).
Proof.
  intros H1 H2 Hm. unfold with_lock.
  apply steps_bind; [by apply steps_log|intros _].
  apply steps_try_finally; [done|by apply steps_log].
Qed.

(** A primitive whose body reads the tree once and then decides. *)
Lemma steps_prim_fs {A} (e : event) (err : exn) (k : tree -> M A) :
  P e -> (forall w, rel D P w (k (fs w) w).2) ->
  steps D P (prim e err (bind get_fs k)).
Proof.
  intros He Hk w. unfold prim.
  destruct (io_fault _); simpl; [by apply rel_emit|].
  eapply rel_trans; [by apply rel_emit|]. apply (Hk (emit e w)).
Qed.

Lemma steps_net e err : P e -> steps D P (net e err).
Proof.
  intros He w. unfold net, prim.
  destruct (io_fault _); by apply rel_emit.
Qed.

End StepRules.

(** * The directory tree *)

Lemma elem_of_inits (q p : list string) : q ∈ inits p <-> q `prefix_of` p.
Proof.
  revert q. induction p as [|x p IH]; intros q; simpl.
  - rewrite list_elem_of_singleton. split.
    + intros ->. done.
    + intros Hq. by apply prefix_nil_inv.
  - rewrite elem_of_cons, list_elem_of_fmap. split.
    + intros [->|(q' & -> & Hq')]; [apply prefix_nil|].
      apply prefix_cons, IH, Hq'.
    + destruct q as [|y q]; [by left|]. intros Hq. right.
      pose proof (prefix_cons_inv_1 _ _ _ _ Hq) as ->.
      exists q. split; [done|]. apply IH. by eapply prefix_cons_inv_2.
Qed.

Lemma lookup_insert_dirs (f : list string -> list string) (l : list (list string))
    (m : tree) (q : list string) :
  foldr (fun r acc => <[f r := Dir]> acc) m l !! q
  = if decide (q ∈ f <$> l) then Some Dir else m !! q.
Proof.
  induction l as [|r l IH].
  - destruct (decide (q ∈ f <$> [])) as [H|H]; [|done]. by apply elem_of_nil in H.
  - rewrite fmap_cons. cbn [foldr].
    destruct (decide (f r = q)) as [->|Hne].
    + rewrite lookup_insert_eq.
      destruct (decide (q ∈ q :: (f <$> l))) as [H|H]; [done|].
      exfalso. apply H. by left.
    + rewrite lookup_insert_ne by done. rewrite IH.
      destruct (decide (q ∈ f <$> l)) as [H|H];
        destruct (decide (q ∈ f r :: (f <$> l))) as [H0|H0]; try done.
      * exfalso. apply H0. by right.
      * apply elem_of_cons in H0 as [->|]; done.
Qed.

Lemma lookup_mkdirs (p q : list string) (m : tree) :
  mkdirs p m !! q = if decide (q `prefix_of` p) then Some Dir else m !! q.
Proof.
  unfold mkdirs. rewrite (lookup_insert_dirs id). rewrite list_fmap_id.
  repeat case_decide; try done.
  - exfalso. by apply H0, elem_of_inits.
  - exfalso. by apply H, elem_of_inits.
Qed.

Lemma lookup_mkdirs_file (p q : list string) (m : tree) c :
  existsb (is_file m) (inits p) = false ->
  m !! q = Some (File c) -> mkdirs p m !! q = Some (File c).
Proof.
  intros Hguard Hq. rewrite lookup_mkdirs. case_decide as Hpre; [|done].
  exfalso. apply elem_of_inits in Hpre.
  assert (existsb (is_file m) (inits p) = true) as Ht; [|congruence].
  apply existsb_exists. exists q. split; [by apply list_elem_of_In|].
  unfold is_file. by rewrite Hq.
Qed.

Lemma lookup_remove_tree (p q : list string) (m : tree) :
  remove_tree p m !! q = if decide (p `prefix_of` q) then None else m !! q.
Proof.
  unfold remove_tree. case_decide as Hpre.
  - apply map_lookup_filter_None. right. intros x _ Hk. by apply Hk.
  - destruct (m !! q) as [n|] eqn:Hq.
    + apply map_lookup_filter_Some. done.
    + apply map_lookup_filter_None. by left.
Qed.

Lemma lookup_extract_member_outside (dest q : list string) name c (m : tree) :
  ¬ dest `prefix_of` q -> extract_member dest name c m !! q = m !! q.
Proof.
  intros Hq. unfold extract_member.
  destruct (segments name) as [|s segs] eqn:Hs; [done|].
  rewrite lookup_insert_ne.
  - rewrite (lookup_insert_dirs (app dest)). case_decide as H; [|done].
    apply list_elem_of_fmap in H as (r & -> & _).
    exfalso. apply Hq. by apply prefix_app_r.
  - intros <-. apply Hq. by apply prefix_app_r.
Qed.

Lemma removelast_snoc (d : list string) x : removelast (d ++ [x]) = d.
Proof. apply removelast_last. Qed.

Lemma snoc_not_prefix (d : list string) x y q :
  x ≠ y -> ¬ (d ++ [x]) `prefix_of` (d ++ y :: q).
Proof.
  intros Hne [k Hk]. rewrite <- app_assoc in Hk.
  apply app_inv_head in Hk. simpl in Hk. congruence.
Qed.

Lemma snoc_not_prefix_self (d : list string) x : ¬ (d ++ [x]) `prefix_of` d.
Proof.
  intros Hp. apply prefix_length in Hp. rewrite length_app in Hp.
  simpl in Hp. lia.
Qed.

(** * Running a computation step by step *)

Lemma bind_inv {A B} (m : M A) (k : A -> M B) w r w' :
  bind m k w = (r, w') ->
  (exists a w1, m w = (Ok a, w1) /\ k a w1 = (r, w')) \/
  (exists e, m w = (Raise e, w') /\ r = Raise e).
Proof.
  unfold bind. destruct (m w) as [[a|e] w1]; intros H.
  - left. eauto.
  - right. inversion H; subst. eauto.
Qed.

Lemma bind_ok_inv {A B} (m : M A) (k : A -> M B) w b w' :
  bind m k w = (Ok b, w') ->
  exists a w1, m w = (Ok a, w1) /\ k a w1 = (Ok b, w').
Proof.
  intros H. apply bind_inv in H as [H|(e & _ & He)]; [done|discriminate].
Qed.

Lemma bind_ok {A B} (m : M A) (k : A -> M B) w a w1 :
  m w = (Ok a, w1) -> bind m k w = k a w1.
Proof. unfold bind. by intros ->. Qed.

Lemma bind_raise {A B} (m : M A) (k : A -> M B) w e w1 :
  m w = (Raise e, w1) -> bind m k w = (Raise e, w1).
Proof. unfold bind. by intros ->. Qed.

Lemma bind_assoc {A B C} (m : M A) (k : A -> M B) (h : B -> M C) w :
  bind (bind m k) h w = bind m (fun a => bind (k a) h) w.
Proof. unfold bind. by destruct (m w) as [[a|e] w1]. Qed.

(** A run is known once its result is: the world is whatever it left. *)
Lemma run_eq {A} (x : result A * world) (r : result A) :
  x.1 = r -> x = (r, x.2).
Proof. intros <-. apply surjective_pairing. Qed.

Section PrimRules.
Context `{X : Env}.

Lemma prim_inv {A} e err (body : M A) w r w' :
  prim e err body w = (r, w') ->
  (io_fault (length (trace w)) = true /\ r = Raise err /\ w' = emit e w) \/
  (io_fault (length (trace w)) = false /\ body (emit e w) = (r, w')).
Proof.
  unfold prim. destruct (io_fault _); intros H.
  - left. by inversion H.
  - right. done.
Qed.

Lemma prim_ok_inv {A} e err (body : M A) w a w' :
  prim e err body w = (Ok a, w') ->
  io_fault (length (trace w)) = false /\ body (emit e w) = (Ok a, w').
Proof.
  intros H. apply prim_inv in H as [(_ & H & _)|H]; [discriminate|done].
Qed.

Lemma prim_run {A} e err (body : M A) w :
  io_fault (length (trace w)) = false -> prim e err body w = body (emit e w).
Proof. unfold prim. by intros ->. Qed.

Variable D : list string -> Prop.
Variable P : event -> Prop.

Lemma steps_os_path_exists p : steps D P (os_path_exists p).
Proof. intros w. apply rel_refl. Qed.

Lemma steps_os_makedirs p :
  (forall q, q `prefix_of` p -> D q) -> P (EvMakedirs p) ->
  steps D P (os_makedirs p).
Proof.
  intros HD HP. apply steps_prim_fs; [done|]. intros w.
  destruct (path_exists _ _); [apply rel_refl|].
  destruct (existsb _ _); [apply rel_refl|].
  apply rel_set_fs. intros q Hq. rewrite lookup_mkdirs.
  case_decide; [|done]. exfalso. by apply Hq, HD.
Qed.

Lemma steps_shutil_copyfile src dst :
  D dst -> P (EvCopyfile src dst) -> steps D P (shutil_copyfile src dst).
Proof.
  intros HD HP. apply steps_prim_fs; [done|]. intros w.
  case_bool_decide; [apply rel_refl|].
  destruct (fs w !! src) as [[|c]|]; try apply rel_refl.
  destruct (writable _ _); [|apply rel_refl].
  apply rel_set_fs. intros q Hq. apply lookup_insert_ne. by intros <-.
Qed.

Lemma steps_write_config p cfg :
  D p -> P (EvWriteConfig p) -> steps D P (write_config p cfg).
Proof.
  intros HD HP. apply steps_prim_fs; [done|]. intros w.
  destruct (writable _ _); [|apply rel_refl].
  apply rel_set_fs. intros q Hq. apply lookup_insert_ne. by intros <-.
Qed.

Lemma steps_shutil_rmtree p :
  (forall q, p `prefix_of` q -> D q) -> P (EvRmtree p) ->
  steps D P (shutil_rmtree p).
Proof.
  intros HD HP. apply steps_prim_fs; [done|]. intros w.
  destruct (is_dir _ _); [|apply rel_refl].
  apply rel_set_fs. intros q Hq. rewrite lookup_remove_tree.
  case_decide; [|done]. exfalso. by apply Hq, HD.
Qed.

Lemma steps_mkdtemp prefix dir :
  (forall s, D (dir ++ [s])) -> (forall n, P (EvMkdtemp n)) ->
  steps D P (mkdtemp prefix dir).
Proof.
  intros HD HP w. unfold mkdtemp.
  apply (steps_prim_fs D P); [done|]. intros w1.
  destruct (path_exists _ _); [apply rel_refl|].
  destruct (is_dir _ _); [|apply rel_refl].
  apply rel_set_fs. intros q Hq. apply lookup_insert_ne. intros <-.
  apply Hq, HD.
Qed.

Lemma steps_mkstemp suffix prefix dir :
  (forall s, D (dir ++ [s])) -> (forall n, P (EvMkstemp n)) ->
  steps D P (mkstemp suffix prefix dir).
Proof.
  intros HD HP w. unfold mkstemp.
  apply (steps_prim_fs D P); [done|]. intros w1.
  destruct (path_exists _ _); [apply rel_refl|].
  destruct (is_dir _ _); [|apply rel_refl].
  apply rel_set_fs. intros q Hq. apply lookup_insert_ne. intros <-.
  apply Hq, HD.
Qed.

Lemma steps_popen_wait argv cwd :
  P (EvExec argv cwd) -> steps D P (popen_wait argv cwd).
Proof.
  intros HP w. unfold popen_wait.
  apply (steps_prim_fs D P); [done|]. intros w1.
  destruct (is_dir _ _); apply rel_refl.
Qed.

Lemma steps_extract dest name c :
  (forall q, dest `prefix_of` q -> D q) -> P (EvExtract dest name) ->
  steps D P (prim (EvExtract dest name) IOError
               (modify (extract_member dest name c))).
Proof.
  intros HD HP w. unfold prim.
  destruct (io_fault _); [by apply rel_emit|].
  eapply rel_trans; [by apply rel_emit|].
  apply rel_set_fs. intros q Hq. apply lookup_extract_member_outside.
  intros Hpre. by apply Hq, HD.
Qed.

Lemma steps_unzip_safely archive dest :
  (forall q, dest `prefix_of` q -> D q) ->
  P (EvUnzip archive dest) -> (forall n, P (EvExtract dest n)) ->
  steps D P (unzip_safely archive dest).
Proof.
  intros HD HP HP'. apply steps_prim_fs; [done|]. intros w.
  destruct (fs w !! archive) as [[|[b|ms|c]]|]; try apply rel_refl.
  destruct (existsb _ _); [apply rel_refl|].
  destruct (_ && _); [|apply rel_refl].
  apply (steps_bind D P).
  - intros w1. apply rel_set_fs. intros q Hq. apply lookup_insert_ne.
    intros <-. by apply Hq, HD.
  - intros _. apply steps_for_each. intros [n c]. by apply steps_extract.
Qed.

Lemma steps_zip_write h e :
  D h -> P (EvZipWrite h e.1 e.2) -> steps D P (zip_write h e).
Proof.
  intros HD HP. apply steps_prim_fs; [done|]. intros w.
  destruct (fs w !! e.2) as [[|c]|]; try apply rel_refl.
  apply rel_set_fs. intros q Hq. apply lookup_insert_ne. by intros <-.
Qed.

Lemma steps_create_zip h l :
  D h -> (forall n s, P (EvZipWrite h n s)) -> steps D P (create_zip h l).
Proof.
  intros HD HP. apply steps_bind.
  - intros w. apply rel_set_fs. intros q Hq. apply lookup_insert_ne.
    by intros <-.
  - intros _. apply steps_for_each. intros e. by apply steps_zip_write.
Qed.

Lemma steps_datetime_now : P EvNow -> steps D P datetime_now.
Proof. intros HP w. by apply rel_emit. Qed.

Lemma steps_time_strftime_now : P EvNow -> steps D P time_strftime_now.
Proof. intros HP w. by apply rel_emit. Qed.

Lemma steps_load_course_config c : steps D P (load_course_config c).
Proof.
  unfold load_course_config. destruct (course_config c); intros w; apply rel_refl.
Qed.

Lemma steps_time_strptime s : steps D P (time_strptime s).
Proof.
  unfold time_strptime. destruct (strptime s); intros w; apply rel_refl.
Qed.

End PrimRules.

(** * What each function of [submit.py] may touch *)

Ltac step :=
  first
    [ apply steps_ret | apply steps_raise | apply steps_lift
    | apply steps_os_path_exists | apply steps_load_course_config
    | apply steps_time_strptime
    | apply steps_log | apply steps_when | apply steps_with_lock
    | apply steps_try_finally | apply steps_try_except_reraise
    | apply steps_os_makedirs | apply steps_shutil_copyfile
    | apply steps_write_config | apply steps_shutil_rmtree
    | apply steps_mkdtemp | apply steps_mkstemp | apply steps_popen_wait
    | apply steps_unzip_safely | apply steps_create_zip
    | apply steps_datetime_now | apply steps_time_strftime_now
    | apply steps_net
    | apply steps_bind; [|intros ?] ].

Section FunctionFootprints.
Context `{X : Env}.

Lemma steps_submission_backup (D : list string -> Prop) bd a cfg :
  (forall q, q `prefix_of` bd -> D q) -> (forall q, bd `prefix_of` q -> D q) ->
  steps D (fun e => store_event e = true) (submission_backup bd a cfg).
Proof.
  intros Hup Hdown. unfold submission_backup.
  repeat step; try done.
  - apply Hdown. by apply prefix_app_r.
  - apply Hdown. by apply prefix_app_r.
  - intros q Hq. apply Hdown. etrans; [|exact Hq]. by apply prefix_app_r.
Qed.

Lemma steps_submission_git_commit dest user a :
  steps (fun _ => False) (fun e => store_event e = true)
    (submission_git_commit dest user a).
Proof. unfold submission_git_commit. repeat step; done. Qed.

Lemma steps_save_submission_in_storer a user asg c ts :
  steps (fun _ => True) (fun e => store_event e = true)
    (save_submission_in_storer a user asg c ts).
Proof.
  unfold save_submission_in_storer. repeat step; done.
Qed.

Lemma steps_submitted_too_soon asg user vmcfg :
  steps (fun _ => False) (fun e => e = EvNow) (submitted_too_soon asg user vmcfg).
Proof.
  unfold submitted_too_soon. apply steps_bind; [intros w; apply rel_refl|].
  intros m. destruct (negb _); [step|].
  destruct (get_upload_time _ _ _ _); repeat step; done.
Qed.

Lemma steps_ssh_bundle b vmcfg asg :
  steps (fun _ => False) (fun e => dispatch_event e = true)
    (ssh_bundle b vmcfg asg).
Proof.
  unfold ssh_bundle. repeat step; try done.
  - apply steps_prim_fs; [done|]. intros w.
    destruct (is_file _ _); apply rel_refl.
  - apply steps_prim_fs; [done|]. intros w.
    destruct (is_file _ _); apply rel_refl.
Qed.

End FunctionFootprints.

(** * Which exceptions a function can raise *)

Section QuietRules.
Context `{X : Env}.

Lemma quiet_ret {A} (a : A) : quiet (ret a).
Proof. intros w e w' H. inversion H. Qed.

Lemma quiet_raise {A} e : class_of e ≠ KSubmitedTooSoon -> quiet (@raise A e).
Proof. intros He w e' w' H. inversion H; subst. done. Qed.

Lemma quiet_bind {A B} (m : M A) (k : A -> M B) :
  quiet m -> (forall a, quiet (k a)) -> quiet (bind m k).
Proof.
  intros Hm Hk w e w' H.
  apply bind_inv in H as [(a & w1 & _ & H)|(e' & H & He)].
  - by eapply Hk.
  - inversion He; subst. by eapply Hm.
Qed.

Lemma quiet_try_finally {A} (body : M A) cleanup :
  quiet body -> quiet cleanup -> quiet (try_finally body cleanup).
Proof.
  intros Hb Hc w e w' H. unfold try_finally in H.
  destruct (body w) as [r w1] eqn:Hbody.
  destruct (cleanup w1) as [[[]|e'] w2] eqn:Hclean; inversion H; subst.
  - by eapply Hb.
  - by eapply Hc.
Qed.

Lemma quiet_try_except_reraise {A} (body : M A) handler :
  quiet body -> quiet handler -> quiet (try_except_reraise body handler).
Proof.
  intros Hb Hc w e w' H. unfold try_except_reraise in H.
  destruct (body w) as [[a|e0] w1] eqn:Hbody; [inversion H|].
  destruct (handler w1) as [[[]|e'] w2] eqn:Hclean; inversion H; subst.
  - by eapply Hb.
  - by eapply Hc.
Qed.

Lemma quiet_log e : quiet (log e).
Proof. intros w e' w' H. inversion H. Qed.

Lemma quiet_get_fs : quiet get_fs.
Proof. intros w e' w' H. inversion H. Qed.

Lemma quiet_modify f : quiet (modify f).
Proof. intros w e' w' H. inversion H. Qed.

Lemma quiet_when b m : quiet m -> quiet (when b m).
Proof. intros Hm. destruct b; [done|apply quiet_ret]. Qed.

Lemma quiet_for_each {A} (l : list A) f :
  (forall a, quiet (f a)) -> quiet (for_each l f).
Proof.
  intros Hf. induction l as [|a l IH]; simpl.
  - apply quiet_ret.
  - apply quiet_bind; [apply Hf|done].
Qed.

Lemma quiet_with_lock {A} a (m : M A) : quiet m -> quiet (with_lock a m).
Proof.
  intros Hm. apply quiet_bind; [apply quiet_log|intros _].
  apply quiet_try_finally; [done|apply quiet_log].
Qed.

Lemma quiet_prim {A} e err (body : M A) :
  class_of err ≠ KSubmitedTooSoon -> quiet body -> quiet (prim e err body).
Proof.
  intros He Hb w e' w' H.
  apply prim_inv in H as [(_ & H & _)|[_ H]].
  - inversion H; subst. done.
  - by eapply Hb.
Qed.

End QuietRules.

Ltac quiet_step :=
  first
    [ apply quiet_ret | apply quiet_log | apply quiet_get_fs
    | apply quiet_modify
    | apply quiet_raise; discriminate
    | apply quiet_when | apply quiet_with_lock
    | apply quiet_try_finally | apply quiet_try_except_reraise
    | apply quiet_for_each; intros ?
    | apply quiet_prim; [discriminate|]
    | apply quiet_bind; [|intros ?]
    | match goal with
      | |- quiet (if ?b then _ else _) => destruct b
      | |- quiet (match ?x with _ => _ end) => destruct x
      end ].

Section QuietFunctions.
Context `{X : Env}.

Lemma quiet_mkdtemp prefix dir : quiet (mkdtemp prefix dir).
Proof.
  intros w e w' H. unfold mkdtemp in H. revert H.
  apply quiet_prim; [discriminate|]. repeat quiet_step.
Qed.

Lemma quiet_mkstemp suffix prefix dir : quiet (mkstemp suffix prefix dir).
Proof.
  intros w e w' H. unfold mkstemp in H. revert H.
  apply quiet_prim; [discriminate|]. repeat quiet_step.
Qed.

Lemma quiet_popen_wait argv cwd : quiet (popen_wait argv cwd).
Proof.
  intros w e w' H. unfold popen_wait in H. revert H.
  apply quiet_prim; [discriminate|]. repeat quiet_step.
Qed.

Lemma quiet_unzip_safely a d : quiet (unzip_safely a d).
Proof. unfold unzip_safely. repeat quiet_step. Qed.

Lemma quiet_submission_backup bd a cfg : quiet (submission_backup bd a cfg).
Proof.
  unfold submission_backup, os_path_exists, os_makedirs, shutil_copyfile,
    write_config.
  repeat quiet_step; apply quiet_unzip_safely.
Qed.

Lemma submission_config_eq u a c t r su sh :
  submission_config u a c t r su sh = Ok (descriptor u a c t r su sh).
Proof.
  assert (forall section opts o v (cfg : gmap string (gmap string string)),
    cfg !! section = Some opts ->
    cfg_set section o v cfg = Ok (<[section := <[lower o := v]> opts]> cfg))
    as Hset.
  { intros section opts o v cfg Hs. unfold cfg_set. by rewrite Hs. }
  unfold submission_config, add_section. simpl.
  rewrite lookup_empty. simpl.
  repeat (erewrite Hset by apply lookup_insert_eq; simpl;
          rewrite insert_insert_eq).
  reflexivity.
Qed.


Lemma quiet_save_submission_in_storer a user asg c ts :
  quiet (save_submission_in_storer a user asg c ts).
Proof.
  unfold save_submission_in_storer, load_course_config.
  destruct (course_config c) as [vmcfg|]; [|repeat quiet_step].
  apply quiet_bind; [apply quiet_ret|intros ?].
  rewrite submission_config_eq.
  apply quiet_bind; [intros w e w' H; inversion H|intros cfg].
  apply quiet_bind; [apply quiet_mkdtemp|intros bd].
  apply quiet_bind; [apply quiet_submission_backup|intros _].
  apply quiet_with_lock.
  apply quiet_bind; [unfold os_path_exists; repeat quiet_step|intros present].
  apply quiet_bind.
  { apply quiet_when. unfold shutil_rmtree. repeat quiet_step. }
  intros _. apply quiet_bind; [apply quiet_submission_backup|intros _].
  unfold submission_git_commit.
  repeat (apply quiet_bind; [apply quiet_popen_wait|intros ?]).
  apply quiet_ret.
Qed.

Lemma quiet_create_testing_bundle user asg c :
  quiet (create_testing_bundle user asg c).
Proof.
  unfold create_testing_bundle, load_course_config.
  destruct (course_config c) as [vmcfg|]; [|repeat quiet_step].
  apply quiet_bind; [apply quiet_ret|intros ?].
  apply quiet_with_lock.
  apply quiet_bind; [apply quiet_mkstemp|intros b].
  unfold create_zip, zip_write. repeat quiet_step.
Qed.

Lemma quiet_ssh_bundle b vmcfg asg : quiet (ssh_bundle b vmcfg asg).
Proof. unfold ssh_bundle, net. repeat quiet_step. Qed.

Lemma quiet_queue_for_testing asg user c : quiet (queue_for_testing asg user c).
Proof.
  unfold queue_for_testing, load_course_config.
  destruct (course_config c) as [vmcfg|]; [|repeat quiet_step].
  apply quiet_bind; [apply quiet_ret|intros ?].
  apply quiet_bind; [apply quiet_create_testing_bundle|intros b].
  apply quiet_ssh_bundle.
Qed.

End QuietFunctions.

(** * The admission checks *)

Lemma tuple_lt_le (a b : list Z) : tuple_lt a b = negb (tuple_le b a).
Proof.
  revert b. induction a as [|x a IH]; intros [|y b]; simpl; try done.
  rewrite (Z.eqb_sym y x). destruct (x =? y) eqn:Hxy; [apply IH|].
  apply Z.eqb_neq in Hxy.
  destruct (x <? y) eqn:H1, (y <? x) eqn:H2; try done; lia.
Qed.

Lemma tuple_le_refl (a : list Z) : tuple_le a a = true.
Proof. induction a as [|x a IH]; simpl; [done|]. by rewrite Z.eqb_refl. Qed.

Lemma st_le_refl (a : struct_time) : st_le a a = true.
Proof. apply tuple_le_refl. Qed.

(** The source's test [upload_time < start or upload_time > stop] is the
    negation of [start <= upload_time <= stop]. *)
Lemma outside_window (u start stop : struct_time) :
  st_lt u start || st_gt u stop = negb (st_le start u && st_le u stop).
Proof.
  unfold st_lt, st_gt, st_le. rewrite !tuple_lt_le.
  by destruct (tuple_le _ _), (tuple_le _ _).
Qed.

Section Admission.
Context `{X : Env}.

Lemma messages_differ start stop delta :
  window_message start stop ≠ too_fast_message delta.
Proof. unfold window_message, too_fast_message. simpl. discriminate. Qed.

Lemma submitted_too_soon_run asg user vmcfg w :
  submitted_too_soon asg user vmcfg w =
    if negb (submission_exists (root_path vmcfg) asg user (fs w))
    then (Ok false, w)
    else match get_upload_time (root_path vmcfg) asg user (fs w) with
         | None => (Ok false, w)
         | Some last =>
             (Ok (0 <? last + assignment_timedelta vmcfg asg
                       - clock (length (trace w))),
              emit EvNow w)
         end.
Proof.
  unfold submitted_too_soon, bind, get_fs.
  destruct (negb _); [done|]. by destruct (get_upload_time _ _ _ _).
Qed.

(** [submit], once the course is known and the upload time parses. *)
Lemma submit_unfold ar asg user c skip forced w vmcfg u :
  course_config c = Some vmcfg ->
  strptime (chosen_upload_time forced w) = Some u ->
  submit ar asg user c skip forced w =
    if st_lt u (upload_active_interval vmcfg).1
       || st_gt u (upload_active_interval vmcfg).2
    then (Raise (SubmitedTooSoonError
                   (window_message (upload_active_interval vmcfg).1
                      (upload_active_interval vmcfg).2)),
          after_clock forced w)
    else
      bind (if negb (effective_skip skip forced)
            then submitted_too_soon asg user vmcfg else ret false)
        (fun too_soon =>
           if too_soon
           then raise (SubmitedTooSoonError
                         (too_fast_message (assignment_timedelta vmcfg asg)))
           else save_submission_in_storer ar user asg c
                  (chosen_upload_time forced w) ;;;
                queue_for_testing asg user c)
        (after_clock forced w).
Proof.
  intros Hcfg Hparse. unfold submit, load_course_config. rewrite Hcfg.
  destruct forced as [t|]; simpl in *.
  - unfold bind at 1 2 3. simpl. unfold time_strptime. rewrite Hparse. simpl.
    by destruct (_ || _).
  - unfold bind at 1 2 3 4. simpl. unfold time_strptime. rewrite Hparse.
    simpl. by destruct (_ || _).
Qed.

(** Past the two admission checks nothing raises [SubmitedTooSoonError]. *)
Lemma quiet_store_and_queue ar asg user c ts :
  quiet (save_submission_in_storer ar user asg c ts ;;;
         queue_for_testing asg user c).
Proof.
  apply quiet_bind; [apply quiet_save_submission_in_storer|intros _].
  apply quiet_queue_for_testing.
Qed.

End Admission.

(** * The rate limiter *)



(** C10: when a canonical submission exists but its upload time cannot be
    read ([get_upload_time] gives [None]), [submitted_too_soon] answers
    [False] without looking at the clock, whatever the minimum interval. *)
Theorem too_soon_unreadable_upload_time `{X : Env} asg user vmcfg w :
  submission_exists (root_path vmcfg) asg user (fs w) = true ->
  get_upload_time (root_path vmcfg) asg user (fs w) = None ->
  submitted_too_soon asg user vmcfg w = (Ok false, w).
Proof.
  intros Hex Hnone. rewrite submitted_too_soon_run. by rewrite Hex, Hnone.
Qed.

Lemma too_soon_unreadable_upload_time_witness :
  @submitted_too_soon (Demo.env 0 None) "lab1" "alice" Demo.cs101
    (Demo.resubmit "2024.01.10 09:00:00")
  = (Ok false, Demo.resubmit "2024.01.10 09:00:00").
Proof.
  apply (@too_soon_unreadable_upload_time (Demo.env 0 None)).
  - vm_compute. reflexivity.
  - reflexivity.
Defined.

(** * The admission window *)

Section Window.
Context `{X : Env}.

Lemma submit_outside_window ar asg user c skip forced w vmcfg u :
  course_config c = Some vmcfg ->
  strptime (chosen_upload_time forced w) = Some u ->
  st_le (upload_active_interval vmcfg).1 u
    && st_le u (upload_active_interval vmcfg).2 = false ->
  submit ar asg user c skip forced w =
    (Raise (SubmitedTooSoonError
              (window_message (upload_active_interval vmcfg).1
                 (upload_active_interval vmcfg).2)),
     after_clock forced w).
Proof.
  intros Hcfg Hparse Hout.
  rewrite (submit_unfold _ _ _ _ _ _ _ _ _ Hcfg Hparse).
  by rewrite outside_window, Hout.
Qed.

Lemma submit_too_fast ar asg user c skip forced w vmcfg u w1 :
  course_config c = Some vmcfg ->
  strptime (chosen_upload_time forced w) = Some u ->
  st_le (upload_active_interval vmcfg).1 u
    && st_le u (upload_active_interval vmcfg).2 = true ->
  effective_skip skip forced = false ->
  submitted_too_soon asg user vmcfg (after_clock forced w) = (Ok true, w1) ->
  submit ar asg user c skip forced w =
    (Raise (SubmitedTooSoonError
              (too_fast_message (assignment_timedelta vmcfg asg))), w1).
Proof.
  intros Hcfg Hparse Hin Hskip Hsoon.
  rewrite (submit_unfold _ _ _ _ _ _ _ _ _ Hcfg Hparse).
  rewrite outside_window, Hin, Hskip. simpl.
  by rewrite (bind_ok _ _ _ _ _ Hsoon).
Qed.

Lemma submit_inside_window ar asg user c skip forced w vmcfg u :
  course_config c = Some vmcfg ->
  strptime (chosen_upload_time forced w) = Some u ->
  st_le (upload_active_interval vmcfg).1 u
    && st_le u (upload_active_interval vmcfg).2 = true ->
  (submit ar asg user c skip forced w).1 ≠
    Raise (SubmitedTooSoonError
             (window_message (upload_active_interval vmcfg).1
                (upload_active_interval vmcfg).2)).
Proof.
  intros Hcfg Hparse Hin.
  rewrite (submit_unfold _ _ _ _ _ _ _ _ _ Hcfg Hparse).
  rewrite outside_window, Hin. simpl.
  set (check := if negb _ then _ else _).
  destruct (bind check _ _) as [r w2] eqn:Hrun. simpl. intros ->.
  apply bind_inv in Hrun as [(b & w1 & Hcheck & Hrest)|(e & Hcheck & He)].
  - destruct b.
    + unfold raise in Hrest.
      assert (window_message (upload_active_interval vmcfg).1
                (upload_active_interval vmcfg).2
              = too_fast_message (assignment_timedelta vmcfg asg)) as Hmsg
        by congruence.
      by apply messages_differ in Hmsg.
    + by apply quiet_store_and_queue in Hrest.
  - subst check. destruct (negb _).
    + rewrite submitted_too_soon_run in Hcheck.
      destruct (negb _); [discriminate|].
      destruct (get_upload_time _ _ _ _); discriminate.
    + discriminate.
Qed.

(** Within the window, a submission the rate limiter lets through is not
    rejected at all: whatever happens next is not a [SubmitedTooSoonError]. *)
Lemma submit_admitted ar asg user c skip forced w vmcfg u w1 msg :
  course_config c = Some vmcfg ->
  strptime (chosen_upload_time forced w) = Some u ->
  st_le (upload_active_interval vmcfg).1 u
    && st_le u (upload_active_interval vmcfg).2 = true ->
  (if negb (effective_skip skip forced)
   then submitted_too_soon asg user vmcfg else ret false)
    (after_clock forced w) = (Ok false, w1) ->
  (submit ar asg user c skip forced w).1 ≠ Raise (SubmitedTooSoonError msg).
Proof.
  intros Hcfg Hparse Hin Hcheck.
  rewrite (submit_unfold _ _ _ _ _ _ _ _ _ Hcfg Hparse).
  rewrite outside_window, Hin. simpl.
  rewrite (bind_ok _ _ _ _ _ Hcheck).
  destruct (bind _ _ w1) as [r w2] eqn:Hrun. simpl. intros ->.
  by apply quiet_store_and_queue in Hrun.
Qed.

(** A resubmission made [min_interval] or more after the recorded upload
    time is admitted by [submit]. *)
Lemma submit_after_interval ar asg user c w vmcfg u last msg :
  course_config c = Some vmcfg ->
  strptime (chosen_upload_time None w) = Some u ->
  st_le (upload_active_interval vmcfg).1 u
    && st_le u (upload_active_interval vmcfg).2 = true ->
  submission_exists (root_path vmcfg) asg user (fs w) = true ->
  get_upload_time (root_path vmcfg) asg user (fs w) = Some last ->
  last + assignment_timedelta vmcfg asg <= clock (S (length (trace w))) ->
  (submit ar asg user c false None w).1 ≠ Raise (SubmitedTooSoonError msg).
Proof.
  intros Hcfg Hparse Hin Hex Hlast Hle.
  eapply submit_admitted; try done.
  cbn [effective_skip negb after_clock].
  rewrite submitted_too_soon_run. simpl. rewrite Hex, Hlast. simpl.
  rewrite length_app. simpl. rewrite Nat.add_1_r.
  repeat f_equal. apply Z.ltb_ge. lia.
Qed.

End Window.

(** C7: with the course known and the upload time parsed to [u], [submit]
    is rejected by the window check exactly when [u] is not within
    [active_start <= u <= active_stop] in Python's order on [struct_time];
    at [u = active_start] and at [u = active_stop] it is not rejected, and
    strictly before the start or strictly after the stop it is. *)
Theorem submit_window_inclusive `{X : Env} ar asg user c skip forced w vmcfg u :
  course_config c = Some vmcfg ->
  strptime (chosen_upload_time forced w) = Some u ->
  let start := (upload_active_interval vmcfg).1 in
  let stop := (upload_active_interval vmcfg).2 in
  let rejected :=
    (submit ar asg user c skip forced w).1 =
      Raise (SubmitedTooSoonError (window_message start stop)) in
  (¬ rejected <-> st_le start u = true /\ st_le u stop = true) /\
  (st_le start stop = true -> u = start \/ u = stop -> ¬ rejected) /\
  (st_lt u start = true \/ st_gt u stop = true -> rejected).
Proof.
  intros Hcfg Hparse start stop rejected.
  assert (st_le start u && st_le u stop = true -> ¬ rejected) as Hin.
  { intros Hin. by eapply submit_inside_window. }
  assert (st_le start u && st_le u stop = false -> rejected) as Hout.
  { intros Hout. subst rejected.
    by erewrite submit_outside_window. }
  split; [|split].
  - rewrite <- andb_true_iff.
    destruct (st_le start u && st_le u stop) eqn:Hb.
    + split; [done|]. intros _. by apply Hin.
    + split; [|discriminate]. intros Hn. exfalso. by apply Hn, Hout.
  - intros Hle [->| ->]; apply Hin.
    + by rewrite st_le_refl, Hle.
    + by rewrite st_le_refl, Hle.
  - intros Hor. apply Hout. rewrite <- (negb_involutive (_ && _)).
    rewrite <- outside_window. fold start stop.
    by destruct Hor as [-> | ->]; [|rewrite orb_true_r].
Qed.

(** On the first day of the window, at midnight sharp, the submission passes
    the window check. *)
Lemma submit_window_inclusive_witness :
  (@submit (Demo.env 0 None) Demo.upload "lab1" "alice" "cs101" false
     (Some "2024.01.01 00:00:00") (Demo.storer Demo.hw1)).1 ≠
  Raise (SubmitedTooSoonError
           (@window_message (Demo.env 0 None) (Demo.t 1 0) (Demo.t 31 0))).
Proof.
  refine (proj1 (proj2 (@submit_window_inclusive (Demo.env 0 None)
            Demo.upload "lab1" "alice" "cs101" false
            (Some "2024.01.01 00:00:00") (Demo.storer Demo.hw1)
            Demo.cs101 (Demo.t 1 0) _ _)) _ _).
  - reflexivity.
  - reflexivity.
  - reflexivity.
  - left. reflexivity.
Defined.

(** * The two rejections *)

(** C2, as the code has it: a submission outside the active interval and a
    submission sent too soon are both rejected with the one exception class
    [SubmitedTooSoonError]; the first carries the bounds of the interval in
    its message, the second the minimum interval, and the two messages are
    never equal, so only the text tells the rejections apart. *)
Theorem rejections_share_one_class `{X : Env}
    ar asg user c skip forced w vmcfg u :
  course_config c = Some vmcfg ->
  strptime (chosen_upload_time forced w) = Some u ->
  let start := (upload_active_interval vmcfg).1 in
  let stop := (upload_active_interval vmcfg).2 in
  let delta := assignment_timedelta vmcfg asg in
  let outcome := (submit ar asg user c skip forced w).1 in
  (st_le start u && st_le u stop = false ->
   outcome = Raise (SubmitedTooSoonError
     ("You can only submit homework between " +:+ strftime start +:+ " and "
        +:+ strftime stop +:+ "."))) /\
  (st_le start u && st_le u stop = true ->
   effective_skip skip forced = false ->
   (submitted_too_soon asg user vmcfg (after_clock forced w)).1 = Ok true ->
   outcome = Raise (SubmitedTooSoonError
     ("You are submitting too fast." +:+ newline +:+
      "                                   Please allow " +:+
      str_timedelta delta +:+ " between submissions"))) /\
  class_of (SubmitedTooSoonError (window_message start stop))
    = class_of (SubmitedTooSoonError (too_fast_message delta)) /\
  window_message start stop ≠ too_fast_message delta.
Proof.
  intros Hcfg Hparse start stop delta outcome. subst outcome.
  split; [|split; [|split]].
  - intros Hout. by erewrite submit_outside_window.
  - intros Hin Hskip Hsoon.
    destruct (submitted_too_soon _ _ _ _) as [b w1] eqn:Hrun.
    simpl in Hsoon. inversion Hsoon; subst b.
    by erewrite submit_too_fast.
  - reflexivity.
  - apply messages_differ.
Qed.

Lemma rejections_share_one_class_witness :
  (@submit (Demo.env 0 None) Demo.upload "lab1" "alice" "cs101" false
     (Some "2024.02.01 00:00:00") (Demo.storer Demo.hw1)).1
  = Raise (SubmitedTooSoonError
      "You can only submit homework between 2024.01.01 00:00:00 and 2024.01.31 00:00:00.").
Proof.
  refine (proj1 (@rejections_share_one_class (Demo.env 0 None)
            Demo.upload "lab1" "alice" "cs101" false
            (Some "2024.02.01 00:00:00") (Demo.storer Demo.hw1)
            Demo.cs101 (StructTime 2024 2 1 0 0 0 3 32 (-1)) _ _) _).
  - reflexivity.
  - reflexivity.
  - reflexivity.
Defined.

(** C2, as stated, fails: on 1 February the course of January rejects the
    upload for its date, and half an hour after alice's last upload, with a
    minimum interval of one hour, it rejects her for her haste; the two
    exceptions are of one class. *)
Lemma rejection_classes_coincide :
  let window_run :=
    @submit (Demo.env 0 None) Demo.upload "lab1" "alice" "cs101" false
      (Some "2024.02.01 00:00:00") (Demo.storer Demo.hw1) in
  let rate_run :=
    @submit (Demo.env 0 (Some Demo.half_past_nine)) Demo.upload "lab1" "alice" "cs101" false
      None (Demo.resubmit "2024.01.10 09:30:00") in
  exists e1 e2,
    window_run.1 = Raise e1 /\ rate_run.1 = Raise e2 /\
    e1 = SubmitedTooSoonError
           (@window_message (Demo.env 0 None) (Demo.t 1 0) (Demo.t 31 0)) /\
    e2 = SubmitedTooSoonError
           (@too_fast_message (Demo.env 0 (Some Demo.half_past_nine)) 3600000000) /\
    class_of e1 = class_of e2.
Proof.
  do 2 eexists. split; [vm_compute; reflexivity|].
  split; [vm_compute; reflexivity|].
  split; [vm_compute; reflexivity|].
  split; [vm_compute; reflexivity|]. reflexivity.
Qed.

(** * A failing store stops the pipeline *)

Section StoreFailure.
Context `{X : Env}.

Lemma store_event_not_bundle e : store_event e = true -> bundle_event e = false.
Proof. by destruct e. Qed.

(** Once the two processes are started, [submission_git_commit] returns
    normally, whatever their exit statuses. *)
Lemma submission_git_commit_ignores_status dest user asg w :
  is_dir (fs w) dest = true ->
  io_fault (length (trace w)) = false ->
  io_fault (S (length (trace w))) = false ->
  (submission_git_commit dest user asg w).1 = Ok tt.
Proof.
  intros Hdir H1 H2. unfold submission_git_commit, bind, popen_wait.
  rewrite prim_run by done. unfold bind, get_fs. simpl. rewrite Hdir. simpl.
  rewrite prim_run.
  - unfold bind, get_fs. simpl. by rewrite Hdir.
  - simpl. rewrite length_app. simpl. by rewrite Nat.add_1_r.
Qed.

End StoreFailure.

(** C4, as the code has it: when an admitted submission reaches the store
    and [save_submission_in_storer] raises (a backup cannot be written, the
    archive is rejected or unreadable, git cannot be started), [submit]
    ends with that exception in the world the store left, and no event of
    building or dispatching a bundle has happened.  The exit statuses of
    [git add] and [git commit] are discarded: once both are started
    [submission_git_commit] returns normally. *)
Theorem store_failure_stops_pipeline `{X : Env}
    ar asg user c skip forced w vmcfg u w1 e w2 :
  course_config c = Some vmcfg ->
  strptime (chosen_upload_time forced w) = Some u ->
  st_le (upload_active_interval vmcfg).1 u
    && st_le u (upload_active_interval vmcfg).2 = true ->
  (if negb (effective_skip skip forced)
   then submitted_too_soon asg user vmcfg else ret false)
    (after_clock forced w) = (Ok false, w1) ->
  save_submission_in_storer ar user asg c (chosen_upload_time forced w) w1
    = (Raise e, w2) ->
  submit ar asg user c skip forced w = (Raise e, w2) /\
  Forall (fun ev => bundle_event ev = false) (new_events w w2) /\
  (forall dest w0,
     is_dir (fs w0) dest = true ->
     io_fault (length (trace w0)) = false ->
     io_fault (S (length (trace w0))) = false ->
     (submission_git_commit dest user asg w0).1 = Ok tt).
Proof.
  intros Hcfg Hparse Hin Hcheck Hsave. split; [|split].
  - rewrite (submit_unfold _ _ _ _ _ _ _ _ _ Hcfg Hparse).
    rewrite outside_window, Hin. simpl.
    rewrite (bind_ok _ _ _ _ _ Hcheck).
    by rewrite (bind_raise _ _ _ _ _ Hsave).
  - apply (rel_new_events (fun _ => True)).
    apply rel_trans with (after_clock forced w).
    { destruct forced; [apply rel_refl|by apply rel_emit]. }
    apply rel_trans with w1.
    { replace w1 with
        ((if negb (effective_skip skip forced)
          then submitted_too_soon asg user vmcfg else ret false)
           (after_clock forced w)).2 by (by rewrite Hcheck).
      destruct (negb _); [|apply rel_refl].
      eapply rel_weaken; [| |apply steps_submitted_too_soon]; [done|].
      by intros ? ->. }
    replace w2 with
      (save_submission_in_storer ar user asg c (chosen_upload_time forced w)
         w1).2 by (by rewrite Hsave).
    eapply rel_weaken; [| |apply steps_save_submission_in_storer]; [done|].
    apply store_event_not_bundle.
  - intros dest w0. apply submission_git_commit_ignores_status.
Qed.

(** The unsafe archive makes the store fail: nothing is built. *)
Lemma store_failure_stops_pipeline_witness :
  let X := Demo.env 0 None in
  let w1 := emit EvNow (Demo.storer Demo.evil) in
  let w2 := (@save_submission_in_storer X Demo.upload "alice" "lab1" "cs101"
               "2024.01.10 10:00:00" w1).2 in
  @submit X Demo.upload "lab1" "alice" "cs101" false None
    (Demo.storer Demo.evil) = (Raise UnsafeArchiveRejected, w2).
Proof.
  intros X w1 w2.
  apply (@store_failure_stops_pipeline X Demo.upload "lab1" "alice" "cs101"
           false None (Demo.storer Demo.evil) Demo.cs101 (Demo.t 10 10) w1
           UnsafeArchiveRejected w2).
  - reflexivity.
  - reflexivity.
  - reflexivity.
  - cbn [effective_skip negb after_clock].
    rewrite submitted_too_soon_run.
    replace (submission_exists (root_path Demo.cs101) "lab1" "alice" (fs w1))
      with false by (vm_compute; reflexivity).
    reflexivity.
  - apply run_eq. vm_compute. reflexivity.
Defined.

(** C4, as stated, fails: with [git add] and [git commit] both ending with
    status 1, [submit] returns normally, having built a bundle and put it
    on the tester's queue. *)
Lemma failed_commit_still_dispatches :
  let X := Demo.env 1 None in
  let run :=
    @submit X Demo.upload "lab1" "alice" "cs101" false None
      (Demo.storer Demo.hw1) in
  (forall n, @exit_status X n = 1) /\
  existsb git_commit_event (trace run.2) = true /\
  run.1 = Ok tt /\
  existsb build_event (trace run.2) = true /\
  In (EvSftpPut ["srv"; "unchecked"; "cs101_lab1_alice_x7.zip"]
        ["queue"; "cs101_lab1_alice_x7.zip"]) (trace run.2).
Proof.
  split; [done|].
  split; [vm_compute; reflexivity|].
  split; [vm_compute; reflexivity|].
  split; [vm_compute; reflexivity|].
  vm_compute. tauto.
Qed.

(** * One backup write *)

Section Backup.
Context `{X : Env}.

Lemma snoc_ne_self (d : list string) x : d ++ [x] ≠ d.
Proof.
  intros H. apply (f_equal length) in H. rewrite length_app in H.
  simpl in H. lia.
Qed.

Lemma config_ne_archive (d : list string) :
  submission_config_file d ≠ submission_archive_file d.
Proof. intros H. apply app_inv_head in H. discriminate. Qed.

Lemma archive_outside_expansion (d : list string) :
  ¬ dir_submission_expanded_archive d `prefix_of` submission_archive_file d.
Proof.
  unfold dir_submission_expanded_archive, submission_archive_file.
  intros [k Hk]. rewrite <- app_assoc in Hk. apply app_inv_head in Hk.
  discriminate.
Qed.

Lemma config_outside_expansion (d : list string) :
  ¬ dir_submission_expanded_archive d `prefix_of` submission_config_file d.
Proof.
  unfold dir_submission_expanded_archive, submission_config_file.
  intros [k Hk]. rewrite <- app_assoc in Hk. apply app_inv_head in Hk.
  discriminate.
Qed.

Lemma submission_backup_split bd a cfg w :
  submission_backup bd a cfg w =
    bind (backup_prologue bd a cfg)
      (fun _ => unzip_safely a (dir_submission_expanded_archive bd) ;;;
                log (EvLog "info" "Stored submission in temporary directory %s" bd))
      w.
Proof.
  unfold submission_backup, backup_prologue.
  rewrite !bind_assoc. unfold bind.
  destruct (os_path_exists bd w) as [[present|e] w0]; [|done].
  destruct (when _ _ w0) as [[[]|e] wa]; [|done].
  destruct (shutil_copyfile _ _ wa) as [[[]|e] wb]; [|done].
  by destruct (write_config _ _ wb) as [[[]|e] wc].
Qed.

(** What a successful prologue has done. *)
Lemma backup_prologue_ok bd a cfg w w1 :
  backup_prologue bd a cfg w = (Ok tt, w1) ->
  exists c pre,
    fs w !! a = Some (File c) /\
    (pre = [] \/ pre = [EvMakedirs bd]) /\
    trace w1 = trace w ++ pre ++
      [EvCopyfile a (submission_archive_file bd);
       EvWriteConfig (submission_config_file bd)] /\
    fs w1 !! submission_archive_file bd = Some (File c) /\
    fs w1 !! submission_config_file bd = Some (File (Config cfg)) /\
    is_dir (fs w1) bd = true /\
    (a ≠ submission_config_file bd -> fs w1 !! a = Some (File c)).
Proof.
  unfold backup_prologue. intros H.
  apply bind_ok_inv in H as (present & w0 & Hex & H).
  unfold os_path_exists, bind, get_fs, ret in Hex. inversion Hex; subst w0.
  clear Hex.
  apply bind_ok_inv in H as ([] & wa & Hmk & H).
  apply bind_ok_inv in H as ([] & wb & Hcp & Hwr).
  (* the directory *)
  assert (exists pre, (pre = [] \/ pre = [EvMakedirs bd]) /\
            trace wa = trace w ++ pre /\
            (forall q c, fs wa !! q = Some (File c) -> fs w !! q = Some (File c)))
    as (pre & Hpre & Htra & Hfsa).
  { destruct (path_exists (fs w) bd) eqn:Hpresent; subst present; simpl in Hmk.
    - inversion Hmk; subst wa. exists []. rewrite app_nil_r. auto.
    - apply prim_ok_inv in Hmk as [_ Hmk].
      unfold bind, get_fs in Hmk. simpl in Hmk. rewrite Hpresent in Hmk.
      destruct (existsb _ _) eqn:Hfiles; [discriminate|].
      inversion Hmk; subst wa. exists [EvMakedirs bd]. simpl.
      split; [auto|]. split; [done|]. intros q c.
      rewrite lookup_mkdirs. by case_decide. }
  (* the archive *)
  apply prim_ok_inv in Hcp as [_ Hcp].
  unfold bind, get_fs in Hcp. simpl in Hcp.
  case_bool_decide as Hsame; [discriminate|].
  destruct (fs wa !! a) as [[|c]|] eqn:Ha; try discriminate.
  destruct (writable _ _) eqn:Hw; [|discriminate].
  inversion Hcp; subst wb. clear Hcp.
  apply andb_true_iff in Hw as [Hdir _].
  unfold submission_archive_file in Hdir. rewrite removelast_snoc in Hdir.
  (* the descriptor *)
  apply prim_ok_inv in Hwr as [_ Hwr].
  unfold bind, get_fs in Hwr. simpl in Hwr.
  destruct (writable _ _); [|discriminate].
  inversion Hwr; subst w1. clear Hwr. simpl.
  exists c, pre. split; [by apply Hfsa|]. split; [done|].
  split. { rewrite Htra, <- !app_assoc. done. }
  split. { rewrite lookup_insert_ne by apply config_ne_archive.
           apply lookup_insert_eq. }
  split; [apply lookup_insert_eq|].
  split.
  - unfold is_dir in *.
    rewrite lookup_insert_ne by apply snoc_ne_self.
    rewrite lookup_insert_ne by apply snoc_ne_self. done.
  - intros Hne. rewrite lookup_insert_ne by done.
    rewrite lookup_insert_ne; [done|]. by intros <-.
Qed.

(** A prologue that fails has not tried to expand anything. *)
Lemma steps_backup_prologue bd a cfg :
  steps (fun q => q `prefix_of` bd \/ q = submission_archive_file bd
                  \/ q = submission_config_file bd)
    (fun e => match e with
              | EvMakedirs _ | EvCopyfile _ _ | EvWriteConfig _ => True
              | _ => False
              end)
    (backup_prologue bd a cfg).
Proof. unfold backup_prologue. repeat step; auto. Qed.

Lemma unzip_safely_trace a d w r w' :
  unzip_safely a d w = (r, w') ->
  exists rest, trace w' = trace w ++ EvUnzip a d :: rest.
Proof.
  intros H. unfold unzip_safely in H.
  apply prim_inv in H as [(_ & _ & ->)|[_ H]]; [by exists []|].
  assert (rel (fun _ => True) (fun _ => True) (emit (EvUnzip a d) w) w')
    as [_ (t & Ht & _)].
  { match type of H with ?body _ = _ =>
      replace w' with (body (emit (EvUnzip a d) w)).2 by (by rewrite H) end.
    unfold bind at 1, get_fs.
    destruct (fs _ !! a) as [[|[b|ms|c]]|]; try apply rel_refl.
    destruct (existsb _ _); [apply rel_refl|].
    destruct (_ && _); [|apply rel_refl].
    apply (steps_bind (fun _ => True) (fun _ => True)).
    - intros w0. by apply rel_set_fs.
    - intros _. apply steps_for_each. intros [n c].
      by apply steps_extract. }
  exists t. rewrite Ht. simpl. by rewrite <- app_assoc.
Qed.

End Backup.

(** C8: whenever a run of [submission_backup] gets as far as attempting the
    expansion, it has (after creating the directory if it was missing)
    copied the archive first and written the descriptor second, and only
    then started the expansion; and whatever the expansion and the rest of
    the function do, fail or not, the backup directory ends up holding the
    uploaded archive, as it was on entry, and the descriptor. *)
Theorem backup_survives_expansion_failure `{X : Env} bd a cfg w r w' :
  submission_backup bd a cfg w = (r, w') ->
  EvUnzip a (dir_submission_expanded_archive bd) ∈ new_events w w' ->
  exists c pre rest,
    fs w !! a = Some (File c) /\
    (pre = [] \/ pre = [EvMakedirs bd]) /\
    new_events w w' =
      pre ++ [EvCopyfile a (submission_archive_file bd);
              EvWriteConfig (submission_config_file bd);
              EvUnzip a (dir_submission_expanded_archive bd)] ++ rest /\
    fs w' !! submission_archive_file bd = Some (File c) /\
    fs w' !! submission_config_file bd = Some (File (Config cfg)).
Proof.
  intros H Hattempt. rewrite submission_backup_split in H.
  apply bind_inv in H as [([] & w1 & Hpro & H)|(e & Hpro & _)].
  - apply backup_prologue_ok in Hpro
      as (c & pre & Ha & Hpre & Htr & Hzip & Hcfg & _ & _).
    assert (exists w2 rest,
              trace w2 = trace w1 ++ EvUnzip a (dir_submission_expanded_archive bd) :: rest
              /\ fs w2 !! submission_archive_file bd = Some (File c)
              /\ fs w2 !! submission_config_file bd = Some (File (Config cfg))
              /\ exists more, trace w' = trace w2 ++ more /\ fs w' = fs w2)
      as (w2 & rest & Htr2 & Hzip2 & Hcfg2 & more & Htr' & Hfs').
    { destruct (unzip_safely a (dir_submission_expanded_archive bd) w1)
        as [r2 w2] eqn:Hun.
      pose proof (unzip_safely_trace _ _ _ _ _ Hun) as [rest Hrest].
      pose proof (steps_unzip_safely
                    (fun q => dir_submission_expanded_archive bd `prefix_of` q)
                    (fun _ => True) a (dir_submission_expanded_archive bd)
                    ltac:(done) ltac:(done) ltac:(done) w1) as Hrel.
      rewrite Hun in Hrel. simpl in Hrel.
      exists w2, rest. split; [done|].
      split.
      { rewrite (rel_fs _ _ _ _ _ Hrel); [done|].
        apply archive_outside_expansion. }
      split.
      { rewrite (rel_fs _ _ _ _ _ Hrel); [done|].
        apply config_outside_expansion. }
      apply bind_inv in H as [([] & w2' & Hun' & Hlog)|(e & Hun' & _)].
      - rewrite Hun in Hun'. inversion Hun'; subst w2'.
        inversion Hlog; subst w'. simpl. eauto.
      - rewrite Hun in Hun'. inversion Hun'; subst w2.
        exists []. by rewrite app_nil_r. }
    exists c, pre, (rest ++ more). split; [done|]. split; [done|].
    split.
    + unfold new_events. rewrite Htr', Htr2, Htr.
      rewrite <- !app_assoc. rewrite drop_app_length.
      simpl. by rewrite <- ?app_assoc.
    + by rewrite Hfs'.
  - exfalso.
    pose proof (steps_backup_prologue bd a cfg w) as Hrel.
    rewrite Hpro in Hrel. simpl in Hrel.
    apply rel_new_events in Hrel.
    rewrite Forall_forall in Hrel. by apply Hrel in Hattempt.
Qed.

(** The unsafe archive: the expansion is attempted and refused, the copy
    and the descriptor are in the backup directory. *)
Lemma backup_survives_expansion_failure_witness :
  let X := Demo.env 0 None in
  let bd := ["srv"; "back"; "b1"] in
  let w := set_fs (<[bd := Dir]>) (Demo.storer Demo.evil) in
  let out := @submission_backup X bd Demo.upload ∅ w in
  exists c pre rest,
    fs w !! Demo.upload = Some (File c) /\
    (pre = [] \/ pre = [EvMakedirs bd]) /\
    new_events w out.2 =
      pre ++ [EvCopyfile Demo.upload (submission_archive_file bd);
              EvWriteConfig (submission_config_file bd);
              EvUnzip Demo.upload (dir_submission_expanded_archive bd)] ++ rest /\
    fs out.2 !! submission_archive_file bd = Some (File c) /\
    fs out.2 !! submission_config_file bd = Some (File (Config ∅)).
Proof.
  intros X bd w out.
  apply (@backup_survives_expansion_failure X bd Demo.upload ∅ w
           (Raise UnsafeArchiveRejected) out.2).
  - apply run_eq. vm_compute. reflexivity.
  - apply list_elem_of_In. vm_compute. tauto.
Defined.

(** * Unsafe archives *)

Section UnsafeArchives.
Context `{X : Env}.

Lemma unzip_safely_refuses a d w ms :
  fs w !! a = Some (File (Zip ms)) ->
  existsb (fun e => unsafe_name e.1) ms = true ->
  exists e, unzip_safely a d w = (Raise e, emit (EvUnzip a d) w) /\
            (io_fault (length (trace w)) = false -> e = UnsafeArchiveRejected).
Proof.
  intros Ha Hunsafe. unfold unzip_safely, prim.
  destruct (io_fault _).
  - exists IOError. split; [done|discriminate].
  - exists UnsafeArchiveRejected. split; [|done].
    unfold bind, get_fs. simpl. by rewrite Ha, Hunsafe.
Qed.

Lemma unzip_safely_not_an_archive a d w cfg :
  fs w !! a = Some (File (Config cfg)) ->
  exists e, unzip_safely a d w = (Raise e, emit (EvUnzip a d) w).
Proof.
  intros Ha. unfold unzip_safely, prim.
  destruct (io_fault _); [by eexists|].
  exists BadZipfile. unfold bind, get_fs. simpl. by rewrite Ha.
Qed.

(** [submission_backup] on an archive with an unsafe member: the run ends
    with an exception in the world the prologue left, plus at most the
    record of the refused expansion. *)
Lemma submission_backup_unsafe bd a cfg w ms :
  fs w !! a = Some (File (Zip ms)) ->
  existsb (fun e => unsafe_name e.1) ms = true ->
  exists e w1,
    submission_backup bd a cfg w = (Raise e, w1) /\
    rel (backup_footprint bd) not_extract w w1.
Proof.
  intros Ha Hunsafe. rewrite submission_backup_split.
  assert (rel (backup_footprint bd) not_extract w
            (backup_prologue bd a cfg w).2) as Hrel.
  { eapply rel_weaken; [| |apply steps_backup_prologue]; [done|by intros []]. }
  assert (forall w1 : world,
            rel (backup_footprint bd) not_extract w w1 ->
            rel (backup_footprint bd) not_extract w
              (emit (EvUnzip a (dir_submission_expanded_archive bd)) w1))
    as Hemit.
  { intros w1 H1. eapply rel_trans; [exact H1|]. by apply rel_emit. }
  destruct (backup_prologue bd a cfg w) as [[[]|e] w1] eqn:Hpro; simpl in Hrel.
  - apply backup_prologue_ok in Hpro as Hfacts.
    destruct Hfacts as (c & pre & Ha' & _ & _ & _ & Hcfg & _ & Hkeep).
    rewrite Ha in Ha'. inversion Ha'; subst c. clear Ha'.
    destruct (decide (a = submission_config_file bd)) as [->|Hne].
    + destruct (unzip_safely_not_an_archive _
                  (dir_submission_expanded_archive bd) _ _ Hcfg) as [e He].
      exists e, (emit (EvUnzip (submission_config_file bd)
                         (dir_submission_expanded_archive bd)) w1).
      split; [|by apply Hemit].
      rewrite (bind_ok _ _ _ _ _ Hpro). by rewrite (bind_raise _ _ _ _ _ He).
    + destruct (unzip_safely_refuses a (dir_submission_expanded_archive bd)
                  w1 ms (Hkeep Hne) Hunsafe) as (e & He & _).
      exists e, (emit (EvUnzip a (dir_submission_expanded_archive bd)) w1).
      split; [|by apply Hemit].
      rewrite (bind_ok _ _ _ _ _ Hpro). by rewrite (bind_raise _ _ _ _ _ He).
  - exists e, w1. split; [by rewrite (bind_raise _ _ _ _ _ Hpro)|done].
Qed.

(** Whatever the archive, [submission_backup] changes the tree only at the
    directories leading to the backup directory and below it. *)
Lemma submission_backup_confined bd a cfg w q :
  ¬ q `prefix_of` bd -> ¬ bd `prefix_of` q ->
  fs (submission_backup bd a cfg w).2 !! q = fs w !! q.
Proof.
  intros Hup Hdown.
  apply (rel_fs (fun q => q `prefix_of` bd \/ bd `prefix_of` q)
           (fun e => store_event e = true)); [|tauto].
  apply steps_submission_backup; auto.
Qed.

End UnsafeArchives.

(** C1: when the archive has a member with an absolute name or a [..]
    segment, [submission_backup] ends with an exception; it is
    [UnsafeArchiveRejected] as soon as the steps before the expansion
    succeeded and the archive could be read; no member is extracted and
    nothing changes below the expansion directory; the only paths of the
    tree that change at all are the directories leading to the backup
    directory, the raw copy and the descriptor. *)
Theorem unsafe_archive_rejected `{X : Env} bd a cfg w ms :
  fs w !! a = Some (File (Zip ms)) ->
  existsb (fun e => unsafe_name e.1) ms = true ->
  let out := submission_backup bd a cfg w in
  (exists e, out.1 = Raise e) /\
  (forall w1,
     backup_prologue bd a cfg w = (Ok tt, w1) ->
     a ≠ submission_config_file bd ->
     io_fault (length (trace w1)) = false ->
     out = (Raise UnsafeArchiveRejected,
            emit (EvUnzip a (dir_submission_expanded_archive bd)) w1)) /\
  Forall not_extract (new_events w out.2) /\
  (forall q, dir_submission_expanded_archive bd `prefix_of` q ->
             fs out.2 !! q = fs w !! q) /\
  (forall q, ¬ q `prefix_of` bd -> q ≠ submission_archive_file bd ->
             q ≠ submission_config_file bd -> fs out.2 !! q = fs w !! q).
Proof.
  intros Ha Hunsafe out.
  destruct (submission_backup_unsafe bd a cfg w ms Ha Hunsafe)
    as (e & w1 & Hrun & Hrel).
  assert (forall q, ¬ q `prefix_of` bd -> q ≠ submission_archive_file bd ->
                    q ≠ submission_config_file bd ->
                    fs out.2 !! q = fs w !! q) as Hframe.
  { intros q H1 H2 H3. subst out. rewrite Hrun. simpl.
    apply (rel_fs _ _ _ _ _ Hrel). unfold backup_footprint. tauto. }
  split; [subst out; rewrite Hrun; by exists e|].
  split.
  { intros w0 Hpro Hne Hfault. subst out.
    rewrite submission_backup_split, (bind_ok _ _ _ _ _ Hpro).
    apply backup_prologue_ok in Hpro
      as (c & pre & Ha' & _ & _ & _ & _ & _ & Hkeep).
    rewrite Ha in Ha'. inversion Ha'; subst c.
    destruct (unzip_safely_refuses a (dir_submission_expanded_archive bd)
                w0 ms (Hkeep Hne) Hunsafe) as (e' & He' & Hcls).
    rewrite (bind_raise _ _ _ _ _ He'). by rewrite (Hcls Hfault). }
  split.
  { subst out. rewrite Hrun. simpl. by eapply rel_new_events. }
  split; [|exact Hframe].
  intros q Hq. apply Hframe.
  - intros Hpre. apply (snoc_not_prefix_self bd "archive").
    by etrans.
  - intros ->. by apply archive_outside_expansion in Hq.
  - intros ->. by apply config_outside_expansion in Hq.
Qed.

Lemma unsafe_archive_rejected_witness :
  let X := Demo.env 0 None in
  let bd := ["srv"; "back"; "b1"] in
  let w := set_fs (<[bd := Dir]>) (Demo.storer Demo.evil) in
  let w1 := (@backup_prologue X bd Demo.upload ∅ w).2 in
  @submission_backup X bd Demo.upload ∅ w
  = (Raise UnsafeArchiveRejected,
     emit (EvUnzip Demo.upload (dir_submission_expanded_archive bd)) w1).
Proof.
  intros X bd w w1.
  apply (proj1 (proj2 (@unsafe_archive_rejected X bd Demo.upload ∅ w
           [("main.c", Raw "int main(){}"); ("../../etc/passwd", Raw "root")]
           ltac:(vm_compute; reflexivity) ltac:(vm_compute; reflexivity)))).
  - apply run_eq. vm_compute. reflexivity.
  - discriminate.
  - reflexivity.
Defined.

(** * A bundle that cannot be assembled *)

Section BundleFailure.
Context `{X : Env}.

Lemma zip_write_keeps_file h e w :
  is_file (fs w) h = true -> is_file (fs (zip_write h e w).2) h = true.
Proof.
  intros Hh. unfold zip_write, prim.
  destruct (io_fault _); [done|]. unfold bind, get_fs. simpl.
  destruct (fs w !! e.2) as [[|c]|]; try done.
  simpl. unfold is_file. by rewrite lookup_insert_eq.
Qed.

Lemma for_each_zip_write_keeps_file h l w :
  is_file (fs w) h = true ->
  is_file (fs (for_each l (zip_write h) w).2) h = true.
Proof.
  revert w. induction l as [|e l IH]; intros w Hh; [done|].
  simpl. unfold bind.
  pose proof (zip_write_keeps_file h e w Hh) as H1.
  destruct (zip_write h e w) as [[[]|e'] w1]; simpl in *; [|done].
  by apply IH.
Qed.

Lemma create_zip_keeps_file h l w :
  is_file (fs (create_zip h l w).2) h = true.
Proof.
  unfold create_zip, bind, modify. simpl.
  apply for_each_zip_write_keeps_file. simpl.
  unfold is_file. by rewrite lookup_insert_eq.
Qed.

(** Once the bundle file is created, no exit of [create_testing_bundle]
    removes it: when assembling fails, the error is logged and re-raised
    with the partly written file still in place. *)
Lemma create_testing_bundle_keeps_partial_file user asg c vmcfg w b w1 e w' :
  course_config c = Some vmcfg ->
  mkstemp ".zip" (c +:+ "_" +:+ asg +:+ "_" +:+ user +:+ "_")
    (dir_unchecked (root_path vmcfg)) (emit (EvLockAcquire asg) w) = (Ok b, w1) ->
  create_testing_bundle user asg c w = (Raise e, w') ->
  is_file (fs w') b = true.
Proof.
  intros Hcfg Hmk. unfold create_testing_bundle, load_course_config.
  rewrite Hcfg. unfold bind at 1, ret at 1.
  unfold with_lock, bind at 1, log at 1. unfold try_finally.
  rewrite (bind_ok _ _ _ _ _ Hmk).
  unfold bind at 1, log at 1. unfold bind at 1.
  unfold try_except_reraise.
  set (w2 := emit _ w1).
  pose proof (create_zip_keeps_file b
    (map (fun e => (e.1, abspath (root_path vmcfg) e.2))
       (rel_file_list vmcfg asg user)) w2) as Hkeep.
  destruct (create_zip _ _ w2) as [[[]|e0] w3]; simpl in *.
  - intros H. inversion H.
  - intros H. inversion H; subst. done.
Qed.

End BundleFailure.

(** C3, at a failing input: the tests of the assignment are missing, so the
    fourth member cannot be read; [create_testing_bundle] logs the failure
    and re-raises [OSError], and the bundle file is still in the holding
    area with the three members written so far. *)
Theorem create_testing_bundle_leaves_partial_bundle :
  let X := Demo.env 0 None in
  let run := @create_testing_bundle X "alice" "lab1" "cs101"
               Demo.stored_without_tests in
  run.1 = Raise OSError /\
  is_file (fs run.2) Demo.bundle = true /\
  map fst (members_of (fs run.2 !! Demo.bundle))
    = ["build.sh"; "run.sh"; "archive.zip"] /\
  existsb (fun e => match e with EvRmtree _ => true | _ => false end)
    (new_events Demo.stored_without_tests run.2) = false.
Proof.
  intros X run.
  assert (run.1 = Raise OSError) as Hraise by (vm_compute; reflexivity).
  split; [done|]. split.
  - apply (@create_testing_bundle_keeps_partial_file X "alice" "lab1" "cs101"
             Demo.cs101 Demo.stored_without_tests Demo.bundle
             (@mkstemp X ".zip" "cs101_lab1_alice_" ["srv"; "unchecked"]
                (emit (EvLockAcquire "lab1") Demo.stored_without_tests)).2
             OSError run.2).
    + reflexivity.
    + apply run_eq. vm_compute. reflexivity.
    + by apply run_eq.
  - split; vm_compute; reflexivity.
Qed.

(** * The queue watcher *)

Section Watcher.
Context `{X : Env}.

(** No run of [_process_job] invokes the commander. *)
Lemma process_job_never_runs_commander path name :
  steps (fun _ => True) (fun e => commander_event e = false)
    (_process_job path name).
Proof.
  unfold _process_job. repeat step; try done.
  intros w. unfold check_call.
  apply (steps_prim_fs (fun _ => True) (fun e => commander_event e = false));
    [done|].
  intros w1. apply (steps_bind (fun _ => True) _).
  - intros w2. by apply rel_set_fs.
  - intros _. destruct (_ =? _); [apply steps_ret|apply steps_raise].
Qed.

(** When the [unzip] process fails the workspace is left behind. *)
Lemma process_job_failure_keeps_workspace path name w location w1 e w2 :
  mkdtemp "vmchecker-" dir_tester_unzip_tmp w = (Ok location, w1) ->
  check_call ["unzip"; "-d"; path_to_string location;
              path_to_string (path ++ [name])]
    (unzip_program location (path ++ [name]))
    (emit (EvPrint "Expanding archive `%s' at `%s'."
             [path ++ [name]; location]) w1) = (Raise e, w2) ->
  _process_job path name w = (Raise e, w2) /\
  Forall (fun ev => match ev with EvRmtree _ => False | _ => True end)
    (new_events w w2).
Proof.
  intros Hmk Hcall. unfold _process_job.
  rewrite (bind_ok _ _ _ _ _ Hmk). unfold bind at 1, log at 1.
  rewrite (bind_raise _ _ _ _ _ Hcall). split; [done|].
  apply (rel_new_events (fun _ => True)).
  assert (rel (fun _ => True)
            (fun ev => match ev with EvRmtree _ => False | _ => True end)
            w w1) as H1.
  { replace w1 with (mkdtemp "vmchecker-" dir_tester_unzip_tmp w).2
      by (by rewrite Hmk).
    by apply steps_mkdtemp. }
  eapply rel_trans; [exact H1|].
  match type of Hcall with ?m ?w0 = _ =>
    apply rel_trans with w0; [by apply rel_emit|];
    replace w2 with (m w0).2 by (by rewrite Hcall) end.
  unfold check_call.
  apply (steps_prim_fs (fun _ => True)
           (fun ev => match ev with EvRmtree _ => False | _ => True end));
    [done|].
  intros w3. apply (steps_bind (fun _ => True) _).
  - intros w4. by apply rel_set_fs.
  - intros _. destruct (_ =? _); [apply steps_ret|apply steps_raise].
Qed.

End Watcher.

(** C5, at a failing input: the [unzip] process ends with status 1;
    [check_call] raises, [_process_job] ends there, and the workspace it
    created is still on disk: no [rmtree] was performed.  The commander is
    not invoked, on this run or on any other. *)
Theorem process_job_leaves_workspace :
  let X := Demo.env 1 None in
  let run := @process_IN_CLOSE_WRITE X {| ev_path := ["queue"]; ev_name := "b.zip" |}
               (Demo.tester Demo.hw1) in
  run.1 = Raise (CalledProcessError 1) /\
  is_dir (fs run.2) Demo.workspace = true /\
  trace run.2 =
    [EvMkdtemp Demo.workspace;
     EvPrint "Expanding archive `%s' at `%s'." [["queue"; "b.zip"]; Demo.workspace];
     EvExec ["unzip"; "-d"; "/tmp/vmchecker-x7"; "/queue/b.zip"] []] /\
  (forall (Y : Env) path name w,
     Forall (fun e => commander_event e = false)
       (new_events w (@_process_job Y path name w).2)).
Proof.
  intros X run.
  split; [vm_compute; reflexivity|].
  split; [vm_compute; reflexivity|].
  split; [vm_compute; reflexivity|].
  intros Y path name w.
  apply (rel_new_events (fun _ => True)).
  apply process_job_never_runs_commander.
Qed.

(** * What a dispatched bundle holds *)

Lemma try_finally_ok_inv {A} (body : M A) cleanup w a w' :
  try_finally body cleanup w = (Ok a, w') ->
  exists w1, body w = (Ok a, w1) /\ cleanup w1 = (Ok tt, w').
Proof.
  unfold try_finally. destruct (body w) as [r w1].
  destruct (cleanup w1) as [[[]|e] w2] eqn:Hc; intros H; inversion H; subst.
  by exists w1.
Qed.

Lemma try_except_reraise_ok_inv {A} (body : M A) handler w a w' :
  try_except_reraise body handler w = (Ok a, w') -> body w = (Ok a, w').
Proof.
  unfold try_except_reraise. destruct (body w) as [[a0|e] w1]; [done|].
  by destruct (handler w1) as [[[]|e'] w2].
Qed.

Section Bundle.
Context `{X : Env}.

Lemma with_lock_ok_inv {A} asg (body : M A) w a w' :
  with_lock asg body w = (Ok a, w') ->
  exists w1, body (emit (EvLockAcquire asg) w) = (Ok a, w1) /\
             w' = emit (EvLockRelease asg) w1.
Proof.
  unfold with_lock, bind at 1, log at 1. intros H.
  apply try_finally_ok_inv in H as (w1 & Hbody & Hrel).
  exists w1. split; [done|]. by inversion Hrel.
Qed.

Lemma net_ok_inv e err w w' : net e err w = (Ok tt, w') -> w' = emit e w.
Proof.
  unfold net. intros H. apply prim_ok_inv in H as [_ H]. by inversion H.
Qed.



(** Assembling: every pair of the manifest becomes one member, in order,
    holding what its source held, and only the bundle file changes. *)
Lemma for_each_zip_write_ok h l w w' ms0 :
  for_each l (zip_write h) w = (Ok tt, w') ->
  fs w !! h = Some (File (Zip ms0)) ->
  exists ms,
    fs w' !! h = Some (File (Zip (ms0 ++ ms))) /\
    (forall q, q ≠ h -> fs w' !! q = fs w !! q) /\
    Forall2 (fun (m : string * content) (e : string * list string) =>
               m.1 = e.1 /\ (e.2 ≠ h -> fs w !! e.2 = Some (File m.2))) ms l.
Proof.
  revert w ms0. induction l as [|e l IH]; intros w ms0 H Hh; simpl in H.
  - inversion H; subst w'. exists []. rewrite app_nil_r. auto.
  - apply bind_ok_inv in H as ([] & w1 & Hwr & H).
    unfold zip_write in Hwr. apply prim_ok_inv in Hwr as [_ Hwr].
    unfold bind, get_fs in Hwr. simpl in Hwr.
    destruct (fs w !! e.2) as [[|c]|] eqn:Hsrc; try discriminate.
    inversion Hwr; subst w1. clear Hwr. rewrite Hh in H. simpl in H.
    destruct (IH _ (ms0 ++ [(e.1, c)]) H) as (ms & Hfin & Hframe & Hall).
    { simpl. apply lookup_insert_eq. }
    exists ((e.1, c) :: ms). split; [by rewrite <- app_assoc in Hfin|].
    split.
    + intros q Hq. rewrite Hframe by done. simpl.
      by rewrite lookup_insert_ne.
    + constructor; [by split|].
      eapply Forall2_impl; [exact Hall|].
      intros m e0 [Hn Hc]. split; [done|]. intros Hne.
      specialize (Hc Hne). simpl in Hc.
      by rewrite lookup_insert_ne in Hc.
Qed.

Lemma mkstemp_ok_inv suffix prefix dir w b w' :
  mkstemp suffix prefix dir w = (Ok b, w') ->
  fs w !! b = None /\
  w' = set_fs (<[b := File (Raw "")]>) (emit (EvMkstemp b) w).
Proof.
  unfold mkstemp. intros H. apply prim_ok_inv in H as [_ H].
  unfold bind, get_fs in H. simpl in H.
  destruct (path_exists _ _) eqn:Hex; [discriminate|].
  destruct (is_dir _ _); [|discriminate].
  inversion H; subst. split; [|done].
  unfold path_exists in Hex. by destruct (fs w !! _).
Qed.

(** A bundle that [create_testing_bundle] returns. *)
Lemma create_testing_bundle_ok user asg c vmcfg w b w' :
  course_config c = Some vmcfg ->
  create_testing_bundle user asg c w = (Ok b, w') ->
  exists ms,
    fs w !! b = None /\
    fs w' !! b = Some (File (Zip ms)) /\
    (forall q, q ≠ b -> fs w' !! q = fs w !! q) /\
    Forall2 (fun (m : string * content) (e : string * list string) =>
               m.1 = e.1 /\
               (abspath (root_path vmcfg) e.2 ≠ b ->
                fs w !! abspath (root_path vmcfg) e.2 = Some (File m.2)))
      ms (rel_file_list vmcfg asg user).
Proof.
  intros Hcfg. unfold create_testing_bundle, load_course_config.
  rewrite Hcfg. unfold bind at 1, ret at 1. intros H.
  apply with_lock_ok_inv in H as (w1 & H & ->).
  apply bind_ok_inv in H as (b' & w2 & Hmk & H).
  apply mkstemp_ok_inv in Hmk as [Hfresh ->].
  apply bind_ok_inv in H as ([] & w3 & Hlog & H).
  inversion Hlog; subst w3. clear Hlog.
  apply bind_ok_inv in H as ([] & w4 & Hzip & Hret).
  inversion Hret; subst b' w4. clear Hret.
  apply try_except_reraise_ok_inv in Hzip.
  unfold create_zip in Hzip.
  apply bind_ok_inv in Hzip as ([] & w5 & Hinit & Hzip).
  inversion Hinit; subst w5. clear Hinit.
  apply (for_each_zip_write_ok _ _ _ _ []) in Hzip
    as (ms & Hfin & Hframe & Hall); [|apply lookup_insert_eq].
  apply Forall2_fmap_r in Hall.
  exists ms. split; [done|]. split; [done|]. split.
  - intros q Hq. rewrite Hframe by done. simpl.
    rewrite lookup_insert_ne by done. by rewrite lookup_insert_ne.
  - eapply Forall2_impl; [exact Hall|].
    intros m e [Hn Hc]. split; [done|]. simpl in *. intros Hne.
    specialize (Hc Hne).
    rewrite lookup_insert_ne in Hc by done.
    by rewrite lookup_insert_ne in Hc.
Qed.

(** A dispatch that succeeds has put the file on the queue and changed
    nothing on the storer. *)
Lemma ssh_bundle_ok b vmcfg asg w w' :
  ssh_bundle b vmcfg asg w = (Ok tt, w') ->
  fs w' = fs w /\
  exists remote pre post,
    trace w' = trace w ++ pre ++ EvSftpPut b remote :: post.
Proof.
  unfold ssh_bundle. intros H.
  apply bind_ok_inv in H as ([] & w1 & H1 & H). apply net_ok_inv in H1 as ->.
  apply try_finally_ok_inv in H as (w2 & H & Hclose).
  inversion Hclose; subst w'. clear Hclose.
  apply bind_ok_inv in H as ([] & w3 & H1 & H). apply net_ok_inv in H1 as ->.
  apply bind_ok_inv in H as ([] & w4 & H1 & H).
  apply prim_ok_inv in H1 as [_ H1]. unfold bind, get_fs in H1. simpl in H1.
  destruct (is_file _ _); [|discriminate]. inversion H1; subst w4. clear H1.
  apply bind_ok_inv in H as ([] & w5 & H1 & H). apply net_ok_inv in H1 as ->.
  apply bind_ok_inv in H as ([] & w6 & H1 & H). apply net_ok_inv in H1 as ->.
  apply prim_ok_inv in H as [_ H]. unfold bind, get_fs in H. simpl in H.
  destruct (is_file _ _); [|discriminate]. inversion H; subst w2. clear H.
  split; [done|]. simpl.
  eexists _, [_; _; _; _; _], [_]. rewrite <- !app_assoc. simpl. reflexivity.
Qed.


End Bundle.

Section Pipeline.
Context `{X : Env}.

(** The trace only grows along [create_testing_bundle]. *)
Lemma steps_create_testing_bundle user asg c :
  steps (fun _ => True) (fun _ => True) (create_testing_bundle user asg c).
Proof. unfold create_testing_bundle. repeat step; done. Qed.


End Pipeline.



(** * Further properties of [submit.py] *)

Lemma new_events_ext w w' t : trace w' = trace w ++ t -> new_events w w' = t.
Proof. intros H. unfold new_events. by rewrite H, drop_app_length. Qed.

Lemma new_events_refl w : new_events w w = [].
Proof. apply new_events_ext. by rewrite app_nil_r. Qed.

Lemma new_events_emit e w : new_events w (emit e w) = [e].
Proof. by apply new_events_ext. Qed.

Lemma rel_events D P w w' :
  rel D P w w' ->
  exists t, trace w' = trace w ++ t /\ Forall P t /\ new_events w w' = t.
Proof.
  intros [_ (t & Ht & HP)]. exists t. split; [done|]. split; [done|].
  by apply new_events_ext.
Qed.

Lemma popen_wait_run `{X : Env} argv cwd w :
  popen_wait argv cwd w =
    if io_fault (length (trace w)) then (Raise OSError, emit (EvExec argv cwd) w)
    else if is_dir (fs w) cwd
         then (Ok (exit_status (length (trace w))), emit (EvExec argv cwd) w)
         else (Raise OSError, emit (EvExec argv cwd) w).
Proof.
  unfold popen_wait, prim. destruct (io_fault _); [done|].
  unfold bind, get_fs. simpl. by destruct (is_dir _ _).
Qed.

Lemma submission_git_commit_run `{X : Env} dest user asg w :
  let add := EvExec ["git"; "add"; "--force"; "."] dest in
  let commit :=
    EvExec ["git"; "commit"; "--allow-empty"; ".";
            "-m " +:+ dquote +:+ "Updated " +:+ user +:+
            "' submission for " +:+ asg +:+ dquote] dest in
  submission_git_commit dest user asg w =
    if io_fault (length (trace w)) then (Raise OSError, emit add w)
    else if is_dir (fs w) dest
         then if io_fault (length (trace (emit add w)))
              then (Raise OSError, emit commit (emit add w))
              else (Ok tt, emit commit (emit add w))
         else (Raise OSError, emit add w).
Proof.
  intros add commit.
  unfold submission_git_commit. unfold bind at 1. rewrite popen_wait_run.
  fold add.
  destruct (io_fault (length (trace w))); [done|].
  destruct (is_dir (fs w) dest) eqn:Hdir; [|done].
  unfold bind at 1. rewrite popen_wait_run. fold commit.
  replace (fs (emit add w)) with (fs w) by done. rewrite Hdir.
  by destruct (io_fault (length (trace (emit add w)))).
Qed.



(** * The dispatch *)

Section Dispatch.
Context `{X : Env}.

Lemma one_event_net e err : one_event (net e err) e.
Proof.
  intros w. unfold net, prim. destruct (io_fault _); by eexists.
Qed.

Lemma one_event_check e err err' (chk : tree -> bool) :
  one_event (prim e err (m <- get_fs ;;
                         if chk m then ret tt else raise err')) e.
Proof.
  intros w. unfold prim. destruct (io_fault _); [by eexists|].
  unfold bind, get_fs. simpl. destruct (chk _); by eexists.
Qed.

Lemma chain_last m e : one_event m e -> chain m [e].
Proof.
  intros Hm w. destruct (Hm w) as [r Hr]. rewrite Hr. simpl.
  split; [done|]. exists [e]. done.
Qed.

Lemma chain_cons m e k es :
  one_event m e -> chain k es -> chain (m ;;; k) (e :: es).
Proof.
  intros Hm Hk w. destruct (Hm w) as [r Hr]. unfold bind. rewrite Hr.
  destruct r as [[]|err].
  - destruct (Hk (emit e w)) as [Hfs (mid & Htr & Hpre & Hok)].
    rewrite Hfs. split; [done|]. exists (e :: mid). split.
    + rewrite Htr. simpl. by rewrite <- app_assoc.
    + split; [by apply prefix_cons|]. intros H. by rewrite Hok.
  - simpl. split; [done|]. exists [e]. split; [done|].
    split; [|discriminate]. apply prefix_cons, prefix_nil.
Qed.

(** The conversation between connecting and closing. *)
Lemma chain_ssh_conversation b vmcfg asg :
  let tester := vmcfg_get vmcfg (assignment_machine vmcfg asg) "Tester" in
  chain
    (net EvStartClient SSHException ;;;
     prim (EvLoadKey (storer_sshid vmcfg)) IOError (
       m <- get_fs ;;
       if is_file m (storer_sshid vmcfg) then ret tt else raise IOError) ;;;
     net (EvAuth (tester_login_username vmcfg tester)) SSHException ;;;
     net EvSftpOpen SSHException ;;;
     prim (EvSftpPut b (tester_queue_path vmcfg tester ++ [basename b]))
       IOError (
       m <- get_fs ;;
       if is_file m b then ret tt else raise IOError))
    [EvStartClient; EvLoadKey (storer_sshid vmcfg);
     EvAuth (tester_login_username vmcfg tester); EvSftpOpen;
     EvSftpPut b (tester_queue_path vmcfg tester ++ [basename b])].
Proof.
  intros tester.
  apply chain_cons; [apply one_event_net|].
  apply chain_cons;
    [apply (one_event_check _ _ _ (fun m => is_file m (storer_sshid vmcfg)))|].
  apply chain_cons; [apply one_event_net|].
  apply chain_cons; [apply one_event_net|].
  apply chain_last.
  apply (one_event_check _ _ _ (fun m => is_file m b)).
Qed.

End Dispatch.

(** X2: [ssh_bundle] never changes the local tree.  Either the connection
    fails and nothing else is attempted, or the transport is closed at the
    end, whatever happened in between; in between come, in this order and
    as far as they succeed, the start of the client, the loading of the
    key, the authentication, the opening of the sftp channel and the
    transfer of the bundle to the queue directory under its base name.  A
    normal return has gone through all of them. *)
Theorem ssh_bundle_closes_transport `{X : Env} b vmcfg asg w :
  let out := ssh_bundle b vmcfg asg w in
  let tester := vmcfg_get vmcfg (assignment_machine vmcfg asg) "Tester" in
  let connect := EvConnect (tester_hostname vmcfg tester) 22 in
  let conversation :=
    [EvStartClient; EvLoadKey (storer_sshid vmcfg);
     EvAuth (tester_login_username vmcfg tester); EvSftpOpen;
     EvSftpPut b (tester_queue_path vmcfg tester ++ [basename b])] in
  fs out.2 = fs w /\
  ((out.1 = Raise SocketError /\ new_events w out.2 = [connect]) \/
   (exists mid,
      new_events w out.2 = connect :: mid ++ [EvTransportClose] /\
      mid `prefix_of` conversation /\
      (out.1 = Ok tt -> mid = conversation))).
Proof.
  intros out tester connect conversation. subst out.
  destruct (ssh_bundle b vmcfg asg w) as [r0 w'] eqn:Hrun. simpl.
  unfold ssh_bundle in Hrun. fold tester in Hrun.
  unfold _DEFAULT_SSH_PORT in Hrun. fold connect in Hrun.
  destruct (one_event_net connect SocketError w) as [r Hr].
  unfold bind at 1 in Hrun. rewrite Hr in Hrun.
  destruct r as [[]|e].
  - unfold try_finally in Hrun.
    pose proof (chain_ssh_conversation b vmcfg asg (emit connect w))
      as [Hfs (mid & Htr & Hpre & Hok)].
    fold tester conversation in Htr, Hpre, Hok, Hfs.
    match type of Hrun with context [ (bind ?m ?k) (emit connect w) ] =>
      set (body := bind m k) in * end.
    destruct (body (emit connect w)) as [r1 w1]. simpl in *.
    inversion Hrun; subst r0 w'. clear Hrun.
    split; [done|]. right. exists mid. split; [|done].
    apply new_events_ext. simpl. rewrite Htr.
    by rewrite <- !app_assoc.
  - inversion Hrun; subst r0 w'. clear Hrun.
    split; [done|]. left. split.
    + unfold net, prim in Hr. destruct (io_fault _); by inversion Hr.
    + apply new_events_emit.
Qed.

(** * The ways through [submit] *)

Section Ways.
Context `{X : Env}.

Lemma submit_unknown_course ar asg user c skip forced w :
  course_config c = None ->
  submit ar asg user c skip forced w = (Raise (NoCourseError c), w).
Proof.
  intros Hcfg. unfold submit, load_course_config. by rewrite Hcfg.
Qed.

Lemma submit_unparsed_run ar asg user c skip forced w vmcfg :
  course_config c = Some vmcfg ->
  strptime (chosen_upload_time forced w) = None ->
  submit ar asg user c skip forced w = (Raise ValueError, after_clock forced w).
Proof.
  intros Hcfg Hparse. unfold submit, load_course_config. rewrite Hcfg.
  destruct forced as [t|]; simpl in *.
  - unfold bind at 1 2 3. simpl. unfold time_strptime. by rewrite Hparse.
  - unfold bind at 1 2 3 4. simpl. unfold time_strptime. by rewrite Hparse.
Qed.

Lemma rel_after_clock forced w :
  rel (fun _ => False) (fun e => e = EvNow) w (after_clock forced w).
Proof. destruct forced; [apply rel_refl|by apply rel_emit]. Qed.

(** The rate-limit check of [submit] always answers, having at most read
    the clock. *)
Lemma rate_check_answers asg user vmcfg skip w :
  exists b w1,
    (if negb skip then submitted_too_soon asg user vmcfg else ret false) w
      = (Ok b, w1) /\
    rel (fun _ => False) (fun e => e = EvNow) w w1 /\
    (skip = true -> b = false /\ w1 = w).
Proof.
  destruct skip; simpl.
  - exists false, w. split; [done|]. split; [apply rel_refl|done].
  - pose proof (steps_submitted_too_soon asg user vmcfg w) as Hrel.
    rewrite submitted_too_soon_run in *.
    destruct (negb _); [|destruct (get_upload_time _ _ _ _)];
      do 2 eexists; (split; [reflexivity|]); (split; [exact Hrel|discriminate]).
Qed.

(** Every run of [submit] takes one of five ways. *)
Lemma submit_ways ar asg user c skip forced w :
  (course_config c = None /\
   submit ar asg user c skip forced w = (Raise (NoCourseError c), w)) \/
  (exists vmcfg, course_config c = Some vmcfg /\
   ((strptime (chosen_upload_time forced w) = None /\
     submit ar asg user c skip forced w
       = (Raise ValueError, after_clock forced w)) \/
    (exists u, strptime (chosen_upload_time forced w) = Some u /\
     ((st_le (upload_active_interval vmcfg).1 u
         && st_le u (upload_active_interval vmcfg).2 = false /\
       submit ar asg user c skip forced w
         = (Raise (SubmitedTooSoonError
                     (window_message (upload_active_interval vmcfg).1
                        (upload_active_interval vmcfg).2)),
            after_clock forced w)) \/
      (st_le (upload_active_interval vmcfg).1 u
         && st_le u (upload_active_interval vmcfg).2 = true /\
       exists w1,
         rel (fun _ => False) (fun e => e = EvNow) w w1 /\
         ((effective_skip skip forced = false /\
           submit ar asg user c skip forced w
             = (Raise (SubmitedTooSoonError
                         (too_fast_message (assignment_timedelta vmcfg asg))),
                w1)) \/
          ((effective_skip skip forced = true -> w1 = after_clock forced w) /\
           submit ar asg user c skip forced w
             = (save_submission_in_storer ar user asg c
                  (chosen_upload_time forced w) ;;;
                queue_for_testing asg user c) w1))))))).
Proof.
  destruct (course_config c) as [vmcfg|] eqn:Hcfg;
    [right; exists vmcfg; split; [done|]
    |left; split; [done|by apply submit_unknown_course]].
  destruct (strptime (chosen_upload_time forced w)) as [u|] eqn:Hparse;
    [right; exists u; split; [done|]
    |left; split; [done|by apply (submit_unparsed_run _ _ _ _ _ _ _ vmcfg)]].
  destruct (st_le _ u && st_le u _) eqn:Hin;
    [right; split; [done|]
    |left; split;
       [done|by apply (submit_outside_window _ _ _ _ _ _ _ vmcfg u)]].
  destruct (rate_check_answers asg user vmcfg (effective_skip skip forced)
              (after_clock forced w)) as (b & w1 & Hcheck & Hrel & Hskip).
  exists w1. split.
  { eapply rel_trans; [apply rel_after_clock|exact Hrel]. }
  rewrite (submit_unfold _ _ _ _ _ _ _ _ _ Hcfg Hparse).
  rewrite outside_window, Hin. simpl.
  rewrite (bind_ok _ _ _ _ _ Hcheck).
  destruct b.
  - left. split; [|done].
    destruct (effective_skip skip forced); [|done].
    by destruct (Hskip eq_refl).
  - right. split; [|done]. intros Heq. by destruct (Hskip Heq).
Qed.

End Ways.

Section WaysFootprints.
Context `{X : Env}.

Lemma rel_nothing_fs P w w' : rel (fun _ => False) P w w' -> fs w' = fs w.
Proof. intros [Hfs _]. apply map_eq. intros p. apply Hfs. tauto. Qed.

Lemma steps_create_testing_bundle_events user asg c :
  steps (fun _ => True)
    (fun e => store_write_event e = false /\ dispatch_event e = false
              /\ clock_event e = false)
    (create_testing_bundle user asg c).
Proof. unfold create_testing_bundle. repeat step; done. Qed.

Lemma steps_queue_for_testing_no_clock asg user c :
  steps (fun _ => True) (fun e => clock_event e = false)
    (queue_for_testing asg user c).
Proof.
  unfold queue_for_testing. apply steps_bind; [step|intros vmcfg].
  apply steps_bind.
  - intros w. eapply rel_weaken;
      [| |apply steps_create_testing_bundle_events];
      [done|by intros e (_ & _ & ?)].
  - intros b w. eapply rel_weaken; [| |apply steps_ssh_bundle]; [done|].
    by intros [].
Qed.

Lemma steps_store_and_queue_no_clock ar asg user c ts :
  steps (fun _ => True) (fun e => clock_event e = false)
    (save_submission_in_storer ar user asg c ts ;;;
     queue_for_testing asg user c).
Proof.
  apply steps_bind; [|intros _; apply steps_queue_for_testing_no_clock].
  intros w. eapply rel_weaken; [| |apply steps_save_submission_in_storer];
    [done|]. by intros [].
Qed.

End WaysFootprints.

(** X3: a submission that [submit] rejects with [SubmitedTooSoonError],
    for its date or for its haste, is neither stored nor queued: the tree
    is as it was, and all the run has done is read the clock. *)
Theorem rejected_submission_not_stored `{X : Env}
    ar asg user c skip forced w msg w' :
  submit ar asg user c skip forced w = (Raise (SubmitedTooSoonError msg), w') ->
  fs w' = fs w /\
  Forall (fun e => e = EvNow) (new_events w w') /\
  exists vmcfg,
    course_config c = Some vmcfg /\
    (msg = window_message (upload_active_interval vmcfg).1
             (upload_active_interval vmcfg).2 \/
     msg = too_fast_message (assignment_timedelta vmcfg asg)).
Proof.
  intros Hrun.
  destruct (submit_ways ar asg user c skip forced w)
    as [[_ H]|(vmcfg & Hcfg & [[_ H]|(u & _ & [[_ H]|(_ & w1 & Hrel & [[_ H]|[_ H]])])])];
    rewrite H in Hrun.
  - discriminate.
  - discriminate.
  - inversion Hrun; subst.
    pose proof (rel_after_clock forced w) as Hrel.
    split; [by eapply rel_nothing_fs|].
    split; [by eapply rel_new_events|]. eauto.
  - inversion Hrun; subst.
    split; [by eapply rel_nothing_fs|].
    split; [by eapply rel_new_events|]. eauto.
  - exfalso. by apply quiet_store_and_queue in Hrun.
Qed.

Lemma rejected_submission_not_stored_witness :
  let X := Demo.env 0 (Some Demo.half_past_nine) in
  let w := Demo.resubmit "2024.01.10 09:30:00" in
  let w' := (@submit X Demo.upload "lab1" "alice" "cs101" false None w).2 in
  fs w' = fs w /\
  Forall (fun e => e = EvNow) (new_events w w') /\
  exists vmcfg,
    @course_config X "cs101" = Some vmcfg /\
    (@too_fast_message X (assignment_timedelta Demo.cs101 "lab1")
       = @window_message X (upload_active_interval vmcfg).1
           (upload_active_interval vmcfg).2 \/
     @too_fast_message X (assignment_timedelta Demo.cs101 "lab1")
       = @too_fast_message X (assignment_timedelta vmcfg "lab1")).
Proof.
  intros X w w'.
  apply (@rejected_submission_not_stored X Demo.upload "lab1" "alice" "cs101"
           false None w).
  apply run_eq. vm_compute. reflexivity.
Defined.

(** X4: a forced upload time that does not parse makes [submit] raise
    [ValueError] at once, whatever [skip_time_check] says: nothing is read,
    nothing is stored, the world is as it was. *)
Theorem forced_time_must_parse `{X : Env} ar asg user c skip t w vmcfg :
  course_config c = Some vmcfg ->
  strptime t = None ->
  submit ar asg user c skip (Some t) w = (Raise ValueError, w).
Proof.
  intros Hcfg Hparse.
  by apply (submit_unparsed_run _ _ _ _ _ (Some t) _ vmcfg).
Qed.

Lemma forced_time_must_parse_witness :
  let X := Demo.env 0 None in
  @submit X Demo.upload "lab1" "alice" "cs101" true (Some "yesterday")
    (Demo.storer Demo.hw1) = (Raise ValueError, Demo.storer Demo.hw1).
Proof.
  intros X.
  apply (@forced_time_must_parse X Demo.upload "lab1" "alice" "cs101" true
           "yesterday" (Demo.storer Demo.hw1) Demo.cs101); reflexivity.
Defined.

(** X5: with [skip_time_check] set, or with a forced upload time, the rate
    limiter is out of the way: the only [SubmitedTooSoonError] that
    [submit] can raise is the one of the window.  With a forced upload time
    the value of [skip_time_check] makes no difference, and no run reads
    the clock. *)
Theorem skipping_the_rate_limiter `{X : Env} ar asg user c skip forced w :
  let out := submit ar asg user c skip forced w in
  (effective_skip skip forced = true ->
   forall msg, out.1 = Raise (SubmitedTooSoonError msg) ->
     exists vmcfg,
       course_config c = Some vmcfg /\
       msg = window_message (upload_active_interval vmcfg).1
               (upload_active_interval vmcfg).2) /\
  (forall t, forced = Some t ->
     out = submit ar asg user c (negb skip) forced w /\
     Forall (fun e => clock_event e = false) (new_events w out.2)).
Proof.
  intros out. subst out. split.
  - intros Hskip msg Hmsg.
    destruct (submit_ways ar asg user c skip forced w)
      as [[_ H]|(vmcfg & Hcfg & [[_ H]|(u & _ & [[_ H]|(_ & w1 & Hrel & [[Hs H]|[_ H]])])])];
      rewrite H in Hmsg; simpl in Hmsg; try discriminate.
    + inversion Hmsg; subst. eauto.
    + congruence.
    + exfalso.
      destruct ((_ ;;; _) w1) as [r w2] eqn:Hrun. simpl in Hmsg. subst r.
      by apply quiet_store_and_queue in Hrun.
  - intros t ->. split; [reflexivity|].
    destruct (submit_ways ar asg user c skip (Some t) w)
      as [[_ H]|(vmcfg & Hcfg & [[_ H]|(u & _ & [[_ H]|(_ & w1 & Hrel & [[Hs H]|[Hw H]])])])];
      rewrite H; simpl; try (rewrite new_events_refl; constructor).
    + discriminate.
    + rewrite (Hw eq_refl). simpl.
      apply (rel_new_events (fun _ => True)).
      apply steps_store_and_queue_no_clock.
Qed.

Lemma skipping_the_rate_limiter_witness :
  let X := Demo.env 0 (Some Demo.half_past_nine) in
  let w := Demo.resubmit "2024.01.10 09:30:00" in
  Forall (fun e => clock_event e = false)
    (new_events w
       (@submit X Demo.upload "lab1" "alice" "cs101" false
          (Some "2024.01.10 10:00:00") w).2).
Proof.
  intros X w.
  apply (proj2 (@skipping_the_rate_limiter X Demo.upload "lab1" "alice"
                  "cs101" false (Some "2024.01.10 10:00:00") w)
           "2024.01.10 10:00:00").
  reflexivity.
Defined.

(** * The assignment lock *)

Section Lock.
Context `{X : Env}.

Lemma new_events_trans D P D' P' w w1 w2 :
  rel D P w w1 -> rel D' P' w1 w2 ->
  new_events w w2 = new_events w w1 ++ new_events w1 w2.
Proof.
  intros (t1 & Ht1 & _ & Hn1)%rel_events (t2 & Ht2 & _ & Hn2)%rel_events.
  rewrite Hn1, Hn2. apply new_events_ext. by rewrite Ht2, Ht1, app_assoc.
Qed.

(** A locked region: the lock is taken, the body runs, the lock is
    released, whatever the body did. *)
Lemma with_lock_events {A} D (P : event -> Prop) asg (body : M A) w :
  steps D P body ->
  exists mid,
    new_events w (with_lock asg body w).2
      = EvLockAcquire asg :: mid ++ [EvLockRelease asg] /\
    Forall P mid /\
    (forall p, ¬ D p -> fs (with_lock asg body w).2 !! p = fs w !! p).
Proof.
  intros Hbody.
  destruct (with_lock asg body w) as [r' w'] eqn:Hrun. simpl.
  unfold with_lock, bind at 1, log at 1, try_finally in Hrun.
  specialize (Hbody (emit (EvLockAcquire asg) w)).
  destruct (body _) as [r w1]. simpl in *.
  inversion Hrun; subst r' w'. clear Hrun.
  destruct Hbody as [Hfs (mid & Htr & HP)].
  exists mid. split; [|split; [done|]].
  - apply new_events_ext. simpl. rewrite Htr. simpl.
    rewrite <- !app_assoc. reflexivity.
  - intros p Hp. by apply Hfs.
Qed.



End Lock.


(** * The footprint of a bundle *)

Section BundleFootprint.
Context `{X : Env}.

Lemma steps_bundle_assembly vmcfg asg user prefix :
  steps (fun _ => True) (fun e => assembly_event e = true)
    (bundle_path <- mkstemp ".zip" prefix (dir_unchecked (root_path vmcfg)) ;;
     log (EvLog "info" "Creating bundle package %s" bundle_path) ;;;
     try_except_reraise
       (create_zip bundle_path
          (map (fun e => (e.1, abspath (root_path vmcfg) e.2))
             (rel_file_list vmcfg asg user)))
       (log (EvLog "error" "Failed to create zip archive %s" bundle_path)) ;;;
     ret bundle_path).
Proof. repeat step; done. Qed.

(** The assembly changes one path at most: the fresh file it creates. *)
Lemma bundle_assembly_frame vmcfg asg user prefix w q :
  let out :=
    (bundle_path <- mkstemp ".zip" prefix (dir_unchecked (root_path vmcfg)) ;;
     log (EvLog "info" "Creating bundle package %s" bundle_path) ;;;
     try_except_reraise
       (create_zip bundle_path
          (map (fun e => (e.1, abspath (root_path vmcfg) e.2))
             (rel_file_list vmcfg asg user)))
       (log (EvLog "error" "Failed to create zip archive %s" bundle_path)) ;;;
     ret bundle_path) w in
  fs out.2 !! q ≠ fs w !! q ->
  fs w !! q = None /\
  q = dir_unchecked (root_path vmcfg)
        ++ [prefix +:+ rand_name (length (trace w)) +:+ ".zip"].
Proof.
  intros out Hq. subst out.
  set (b := dir_unchecked (root_path vmcfg)
              ++ [prefix +:+ rand_name (length (trace w)) +:+ ".zip"]) in *.
  match type of Hq with context [ bind ?m ?k w ] =>
    destruct (bind m k w) as [r w'] eqn:Hrun end.
  simpl in Hq.
  apply bind_inv in Hrun as [(b' & w1 & Hmk & Hrest)|(e & Hmk & _)].
  - apply mkstemp_ok_inv in Hmk as Hinv. destruct Hinv as [Hfresh ->].
    assert (b' = b) as ->.
    { unfold mkstemp in Hmk. apply prim_ok_inv in Hmk as [_ Hmk].
      unfold bind, get_fs in Hmk. simpl in Hmk.
      destruct (path_exists _ _); [discriminate|].
      destruct (is_dir _ _); [|discriminate]. by inversion Hmk. }
    assert (rel (fun p => p = b) (fun _ => True)
              (set_fs <[b:=File (Raw "")]> (emit (EvMkstemp b) w)) w')
      as Hrel.
    { match type of Hrest with ?m ?w0 = _ =>
        replace w' with (m w0).2 by (by rewrite Hrest) end.
      repeat step; done. }
    destruct (decide (q = b)) as [->|Hne]; [done|].
    exfalso. apply Hq. rewrite (rel_fs _ _ _ _ _ Hrel) by done.
    simpl. by rewrite lookup_insert_ne.
  - exfalso. apply Hq. unfold mkstemp, prim in Hmk.
    destruct (io_fault _); [by inversion Hmk|].
    unfold bind, get_fs in Hmk. simpl in Hmk.
    destruct (path_exists _ _); [by inversion Hmk|].
    destruct (is_dir _ _); by inversion Hmk.
Qed.

End BundleFootprint.

(** X7: every run of [create_testing_bundle] for a known course takes the
    assignment lock, does nothing but create the bundle file, log and add
    members to it, and releases the lock, whatever the outcome.  It changes
    at most one path of the tree, which did not exist before and is a
    direct child of the unchecked directory named
    [<course>_<assignment>_<user>_<random>.zip]: no existing file is ever
    overwritten, and the sources are only read. *)
Theorem create_testing_bundle_footprint `{X : Env} user asg c w vmcfg :
  course_config c = Some vmcfg ->
  let out := create_testing_bundle user asg c w in
  (exists mid,
     new_events w out.2 = EvLockAcquire asg :: mid ++ [EvLockRelease asg] /\
     Forall (fun e => assembly_event e = true) mid) /\
  (forall q, fs out.2 !! q ≠ fs w !! q ->
     fs w !! q = None /\
     exists random,
       q = dir_unchecked (root_path vmcfg)
             ++ [(c +:+ "_" +:+ asg +:+ "_" +:+ user +:+ "_") +:+ random
                   +:+ ".zip"]).
Proof.
  intros Hcfg out. subst out.
  destruct (create_testing_bundle user asg c w) as [r w'] eqn:Hrun. simpl.
  unfold create_testing_bundle, load_course_config in Hrun.
  rewrite Hcfg in Hrun. unfold bind at 1, ret at 1 in Hrun.
  split.
  - match type of Hrun with with_lock _ ?body _ = _ =>
      destruct (with_lock_events (fun _ => True)
                  (fun e => assembly_event e = true) asg body w
                  (steps_bundle_assembly vmcfg asg user _))
        as (mid & Hmid & HP & _)
    end.
    rewrite Hrun in Hmid. simpl in Hmid. eauto.
  - intros q Hq.
    unfold with_lock, bind at 1, log at 1, try_finally in Hrun.
    pose proof (bundle_assembly_frame vmcfg asg user
                  (c +:+ "_" +:+ asg +:+ "_" +:+ user +:+ "_")
                  (emit (EvLockAcquire asg) w) q) as Hframe.
    cbv zeta in Hframe.
    match type of Hrun with context [ bind ?m ?k (emit _ w) ] =>
      destruct (bind m k (emit (EvLockAcquire asg) w)) as [r1 w1] end.
    cbn [fst snd log] in Hrun. inversion Hrun; subst r w'. clear Hrun.
    destruct (Hframe Hq) as [Hnone ->]. split; [done|]. eauto.
Qed.

Lemma create_testing_bundle_footprint_witness :
  let X := Demo.env 0 None in
  let w := Demo.stored_without_tests in
  let out := @create_testing_bundle X "alice" "lab1" "cs101" w in
  (exists mid,
     new_events w out.2 = EvLockAcquire "lab1" :: mid ++ [EvLockRelease "lab1"] /\
     Forall (fun e => assembly_event e = true) mid) /\
  (forall q, fs out.2 !! q ≠ fs w !! q ->
     fs w !! q = None /\
     exists random,
       q = @dir_unchecked X (root_path Demo.cs101)
             ++ [("cs101" +:+ "_" +:+ "lab1" +:+ "_" +:+ "alice" +:+ "_")
                   +:+ random +:+ ".zip"]).
Proof.
  intros X w out.
  apply (@create_testing_bundle_footprint X "alice" "lab1" "cs101" w Demo.cs101).
  reflexivity.
Defined.

(** * The phases of [submit] *)

Section Phases.
Context `{X : Env}.

Lemma steps_run {A} D P (m : M A) w r w' :
  steps D P m -> m w = (r, w') -> rel D P w w'.
Proof. intros Hm Hrun. specialize (Hm w). by rewrite Hrun in Hm. Qed.

Lemma rel_any D P w w' : rel D P w w' -> rel (fun _ => True) (fun _ => True) w w'.
Proof. apply rel_weaken; done. Qed.

(** A store that returns normally has run [git commit]. *)
Lemma save_submission_in_storer_committed ar user asg c ts w w' :
  save_submission_in_storer ar user asg c ts w = (Ok tt, w') ->
  Exists (fun e => git_commit_event e = true) (new_events w w').
Proof.
  unfold save_submission_in_storer, load_course_config.
  destruct (course_config c) as [vmcfg|]; [|discriminate].
  unfold bind at 1, ret at 1.
  rewrite submission_config_eq. unfold bind at 1, lift at 1.
  intros H.
  apply bind_ok_inv in H as (bd & w1 & H1 & H).
  apply (steps_run (fun _ => True) (fun _ => True)) in H1;
    [|by apply steps_mkdtemp].
  apply bind_ok_inv in H as ([] & w2 & H2 & H).
  apply (steps_run (fun _ => True) (fun _ => True)) in H2;
    [|by (unfold submission_backup; repeat step)].
  apply with_lock_ok_inv in H as (w3 & H & ->).
  apply bind_ok_inv in H as (present & w4 & H4 & H).
  inversion H4; subst w4. clear H4.
  apply bind_ok_inv in H as ([] & w5 & H5 & H).
  apply (steps_run (fun _ => True) (fun _ => True)) in H5;
    [|by repeat step].
  apply bind_ok_inv in H as ([] & w6 & H6 & Hgit).
  apply (steps_run (fun _ => True) (fun _ => True)) in H6;
    [|by (unfold submission_backup; repeat step)].
  rewrite submission_git_commit_run in Hgit.
  destruct (io_fault _); [discriminate|].
  destruct (is_dir _ _); [|discriminate].
  destruct (io_fault _); [discriminate|].
  inversion Hgit; subst w3. clear Hgit.
  assert (rel (fun _ => True) (fun _ => True) w w6) as Hrel.
  { eapply rel_trans; [exact H1|]. eapply rel_trans; [exact H2|].
    eapply rel_trans; [by apply (rel_emit _ _ (EvLockAcquire asg))|].
    eapply rel_trans; [exact H5|exact H6]. }
  apply rel_events in Hrel as (t & Ht & _ & _).
  match goal with
  | |- context [ emit (EvLockRelease asg) (emit ?cm (emit ?ad w6)) ] =>
      rewrite (new_events_ext w _ (t ++ [ad; cm; EvLockRelease asg]))
  end.
  - apply Exists_app. right. apply Exists_cons. right.
    apply Exists_cons. by left.
  - simpl. rewrite Ht. by rewrite <- !app_assoc.
Qed.

(** A bundle that is returned was created under the lock. *)
Lemma create_testing_bundle_ok_events user asg c w b w' :
  create_testing_bundle user asg c w = (Ok b, w') ->
  exists rest,
    new_events w w'
      = EvLockAcquire asg :: EvMkstemp b :: rest ++ [EvLockRelease asg].
Proof.
  unfold create_testing_bundle, load_course_config.
  destruct (course_config c) as [vmcfg|]; [|discriminate].
  unfold bind at 1, ret at 1. intros H.
  apply with_lock_ok_inv in H as (w1 & H & ->).
  apply bind_ok_inv in H as (b' & w2 & Hmk & H).
  apply mkstemp_ok_inv in Hmk as [_ ->].
  assert (b' = b) as ->.
  { apply bind_ok_inv in H as ([] & w3 & _ & H).
    apply bind_ok_inv in H as ([] & w4 & _ & H). by inversion H. }
  apply (steps_run (fun _ => True) (fun _ => True)) in H;
    [|by repeat step].
  apply rel_events in H as (t & Ht & _ & _).
  exists t. apply new_events_ext. simpl. rewrite Ht. simpl.
  rewrite <- !app_assoc. reflexivity.
Qed.

End Phases.

(** X8: the events of every run of [submit] come in four phases, in this
    order and each possibly empty: reading the clock; the store; the
    assembly of the bundle under the lock; the dispatch.  So nothing is
    written to the backups or committed once a bundle is being assembled,
    and nothing is sent before the assembly is over.  The assembly starts
    only after [git commit] has run, and the dispatch only after the bundle
    file was created and the lock released. *)
Theorem submit_phases `{X : Env} ar asg user c skip forced w :
  let out := submit ar asg user c skip forced w in
  exists t0 t1 t2 t3,
    new_events w out.2 = t0 ++ t1 ++ t2 ++ t3 /\
    Forall (fun e => e = EvNow) t0 /\
    Forall (fun e => store_event e = true) t1 /\
    Forall (fun e => assembly_event e = true \/ lock_event e = true) t2 /\
    Forall (fun e => dispatch_event e = true) t3 /\
    (t2 <> [] -> Exists (fun e => git_commit_event e = true) t1) /\
    (t3 <> [] -> (exists b, EvMkstemp b ∈ t2)
                 /\ last t2 = Some (EvLockRelease asg)).
Proof.
  intros out. subst out.
  assert (forall w' (t0 : list event),
            new_events w w' = t0 -> Forall (fun e => e = EvNow) t0 ->
            exists t0 t1 t2 t3 : list event,
              new_events w w' = t0 ++ t1 ++ t2 ++ t3 /\
              Forall (fun e => e = EvNow) t0 /\
              Forall (fun e => store_event e = true) t1 /\
              Forall (fun e => assembly_event e = true \/ lock_event e = true) t2 /\
              Forall (fun e => dispatch_event e = true) t3 /\
              (t2 <> [] -> Exists (fun e => git_commit_event e = true) t1) /\
              (t3 <> [] -> (exists b, EvMkstemp b ∈ t2)
                           /\ last t2 = Some (EvLockRelease asg))) as Hearly.
  { intros w' t0 Hne H0. exists t0, [], [], []. rewrite !app_nil_r.
    repeat split; try done; constructor. }
  destruct (submit_ways ar asg user c skip forced w)
    as [[_ H]|(vmcfg & Hcfg & [[_ H]|(u & _ & [[_ H]|(_ & w1 & Hrel & [[_ H]|[_ H]])])])];
    rewrite H; simpl.
  - apply (Hearly _ []); [apply new_events_refl|constructor].
  - pose proof (rel_after_clock forced w) as (t & _ & HP & Hne)%rel_events.
    by apply (Hearly _ t).
  - pose proof (rel_after_clock forced w) as (t & _ & HP & Hne)%rel_events.
    by apply (Hearly _ t).
  - apply rel_events in Hrel as (t & _ & HP & Hne). by apply (Hearly _ t).
  - clear H Hearly.
    pose proof (rel_events _ _ _ _ Hrel) as (t0 & _ & HP0 & Hne0).
    destruct ((_ ;;; _) w1) as [r w'] eqn:Hrun. simpl.
    apply bind_inv in Hrun as [([] & w2 & Hsave & Hq)|(e & Hsave & _)].
    2: { pose proof (steps_run _ _ _ _ _ _
                       (steps_save_submission_in_storer _ _ _ _ _) Hsave)
           as Hrel1.
         pose proof (rel_events _ _ _ _ Hrel1) as (t1 & _ & HP1 & Hne1).
         exists t0, t1, [], []. rewrite !app_nil_r.
         rewrite (new_events_trans _ _ _ _ _ _ _ Hrel Hrel1), Hne0, Hne1.
         repeat split; try done; constructor. }
    pose proof (steps_run _ _ _ _ _ _
                  (steps_save_submission_in_storer _ _ _ _ _) Hsave) as Hrel1.
    pose proof (rel_events _ _ _ _ Hrel1) as (t1 & _ & HP1 & Hne1).
    pose proof (save_submission_in_storer_committed _ _ _ _ _ _ _ Hsave)
      as Hcommit.
    rewrite Hne1 in Hcommit.
    pose proof (rel_trans _ _ _ _ _ (rel_any _ _ _ _ Hrel) (rel_any _ _ _ _ Hrel1))
      as Hrel01.
    unfold queue_for_testing, load_course_config in Hq. rewrite Hcfg in Hq.
    unfold bind at 1, ret at 1 in Hq.
    (* the assembly *)
    assert (exists mid,
              new_events w2 (create_testing_bundle user asg c w2).2
                = EvLockAcquire asg :: mid ++ [EvLockRelease asg] /\
              Forall (fun e => assembly_event e = true) mid)
      as (mid & Hmid & HPmid).
    { unfold create_testing_bundle, load_course_config. rewrite Hcfg.
      unfold bind at 1, ret at 1.
      match goal with |- context [ with_lock _ ?body _ ] =>
        destruct (with_lock_events (fun _ => True)
                    (fun e => assembly_event e = true) asg body w2
                    (steps_bundle_assembly vmcfg asg user _))
          as (mid & Hmid & HP & _)
      end. eauto. }
    assert (Forall (fun e => assembly_event e = true \/ lock_event e = true)
              (EvLockAcquire asg :: mid ++ [EvLockRelease asg])) as HP2.
    { constructor; [by right|]. apply Forall_app. split.
      - eapply Forall_impl; [exact HPmid|]. auto.
      - constructor; [by right|constructor]. }
    pose proof (steps_create_testing_bundle user asg c w2) as Hrel2.
    apply bind_inv in Hq as [(b & w3 & Hb & Hssh)|(e & Hb & _)];
      rewrite Hb in Hmid, Hrel2; simpl in Hmid, Hrel2.
    2: { exists t0, t1, (EvLockAcquire asg :: mid ++ [EvLockRelease asg]), [].
         rewrite !app_nil_r.
         rewrite (new_events_trans _ _ _ _ _ _ _ Hrel01 Hrel2).
         rewrite (new_events_trans _ _ _ _ _ _ _ Hrel Hrel1).
         rewrite Hne0, Hne1, Hmid, <- app_assoc.
         repeat split; try done; try constructor. }
    (* the dispatch *)
    pose proof (steps_run _ _ _ _ _ _ (steps_ssh_bundle _ _ _) Hssh) as Hrel3.
    pose proof (rel_events _ _ _ _ Hrel3) as (t3 & _ & HP3 & Hne3).
    pose proof (rel_trans _ _ _ _ _ Hrel01 Hrel2) as Hrel02.
    exists t0, t1, (EvLockAcquire asg :: mid ++ [EvLockRelease asg]), t3.
    rewrite (new_events_trans _ _ _ _ _ _ _ Hrel02 Hrel3).
    rewrite (new_events_trans _ _ _ _ _ _ _ Hrel01 Hrel2).
    rewrite (new_events_trans _ _ _ _ _ _ _ Hrel Hrel1).
    rewrite Hne0, Hne1, Hmid, Hne3, <- !app_assoc.
    repeat split; try done.
    + apply create_testing_bundle_ok_events in Hb as [rest Hrest].
      rewrite Hmid in Hrest. exists b. rewrite Hrest.
      apply elem_of_cons. right. by left.
    + change (EvLockAcquire asg :: mid ++ [EvLockRelease asg])
        with ((EvLockAcquire asg :: mid) ++ [EvLockRelease asg]).
      apply last_snoc.
Qed.

(** * Where the uploaded bytes end up *)

Section RoundTrip.
Context `{X : Env}.

Lemma prefix_snoc_inv (q d : list string) x :
  q `prefix_of` d ++ [x] -> q `prefix_of` d \/ q = d ++ [x].
Proof.
  intros [k Hk]. destruct (decide (k = [])) as [->|Hne].
  - right. by rewrite app_nil_r in Hk.
  - left. destruct (exists_last Hne) as (k' & y & ->).
    rewrite app_assoc in Hk. apply app_inj_tail in Hk as [-> _].
    by apply prefix_app_r.
Qed.

Lemma mkdtemp_ok_inv prefix dir w bd w' :
  mkdtemp prefix dir w = (Ok bd, w') ->
  fs w !! bd = None /\ (exists name, bd = dir ++ [name]) /\
  w' = set_fs (<[bd := Dir]>) (emit (EvMkdtemp bd) w).
Proof.
  unfold mkdtemp. intros H. apply prim_ok_inv in H as [_ H].
  unfold bind, get_fs in H. simpl in H.
  destruct (path_exists _ _) eqn:Hex; [discriminate|].
  destruct (is_dir _ _); [|discriminate].
  inversion H; subst. split; [|split; [eauto|done]].
  unfold path_exists in Hex. by destruct (fs w !! _).
Qed.

(** A backup write that succeeds holds the bytes of the upload, and has
    left the upload alone when it lies outside the backup directory. *)
Lemma submission_backup_ok_archive bd a cfg w w' :
  submission_backup bd a cfg w = (Ok tt, w') ->
  ¬ bd `prefix_of` a ->
  exists bytes,
    fs w !! a = Some (File bytes) /\
    fs w' !! a = Some (File bytes) /\
    fs w' !! submission_archive_file bd = Some (File bytes).
Proof.
  intros H Hout. rewrite submission_backup_split in H.
  apply bind_ok_inv in H as ([] & w1 & Hpro & H).
  apply backup_prologue_ok in Hpro
    as (c & pre & Ha & _ & _ & Hzip & _ & _ & Hkeep).
  assert (rel (fun q => dir_submission_expanded_archive bd `prefix_of` q)
            (fun _ => True) w1 w') as Hrel.
  { eapply steps_run; [|exact H].
    apply steps_bind; [by apply steps_unzip_safely|].
    intros _. by apply steps_log. }
  exists c. split; [done|]. split.
  - rewrite (rel_fs _ _ _ _ _ Hrel).
    + apply Hkeep. intros ->. apply Hout. by apply prefix_app_r.
    + intros Hpre. apply Hout. etrans; [|exact Hpre]. by apply prefix_app_r.
  - rewrite (rel_fs _ _ _ _ _ Hrel); [done|apply archive_outside_expansion].
Qed.

(** A store that succeeds: the upload is untouched and its bytes are in
    the historical and in the canonical backup. *)
Lemma save_submission_in_storer_archives ar user asg c ts vmcfg w w' :
  course_config c = Some vmcfg ->
  let db := dir_backup (root_path vmcfg) in
  let gd := dir_submission_root (root_path vmcfg) asg user in
  ¬ db `prefix_of` ar -> ¬ gd `prefix_of` ar ->
  ¬ db `prefix_of` gd -> ¬ gd `prefix_of` db ->
  save_submission_in_storer ar user asg c ts w = (Ok tt, w') ->
  exists bytes name,
    fs w !! ar = Some (File bytes) /\
    fs w' !! ar = Some (File bytes) /\
    fs w' !! submission_archive_file (db ++ [name]) = Some (File bytes) /\
    fs w' !! submission_archive_file gd = Some (File bytes).
Proof.
  intros Hcfg db gd Har_db Har_gd Hdg Hgd.
  unfold save_submission_in_storer, load_course_config.
  rewrite Hcfg. unfold bind at 1, ret at 1.
  rewrite submission_config_eq. unfold bind at 1, lift at 1.
  fold db gd. intros H.
  apply bind_ok_inv in H as (bd & w1 & H1 & H).
  apply mkdtemp_ok_inv in H1 as (Hfresh & (name & ->) & ->).
  apply bind_ok_inv in H as ([] & w2 & H2 & H).
  assert (¬ (db ++ [name]) `prefix_of` ar) as Har_bd.
  { intros Hp. apply Har_db. etrans; [|exact Hp]. by apply prefix_app_r. }
  apply submission_backup_ok_archive in H2 as (bytes & Ha1 & Ha2 & Hz2);
    [|done].
  simpl in Ha1. rewrite lookup_insert_ne in Ha1
    by (intros <-; by apply Har_bd).
  (* the historical copy lies outside the canonical directory *)
  assert (¬ gd `prefix_of` submission_archive_file (db ++ [name])) as Hz_gd.
  { intros Hp. apply prefix_snoc_inv in Hp as [Hp| ->].
    - apply prefix_snoc_inv in Hp as [Hp| ->]; [done|].
      apply Hdg. by apply prefix_app_r.
    - apply Hdg. unfold submission_archive_file. rewrite <- app_assoc.
      by apply prefix_app_r. }
  assert (¬ submission_archive_file (db ++ [name]) `prefix_of` gd) as Hgd_z.
  { intros Hp. apply Hdg. etrans; [|exact Hp].
    unfold submission_archive_file. rewrite <- app_assoc.
    by apply prefix_app_r. }
  apply with_lock_ok_inv in H as (w3 & H & ->).
  apply bind_ok_inv in H as (present & w4 & H4 & H).
  inversion H4; subst w4. clear H4.
  apply bind_ok_inv in H as ([] & w5 & H5 & H).
  apply (steps_run (fun q => gd `prefix_of` q) (fun _ => True)) in H5;
    [|by repeat step].
  apply bind_ok_inv in H as ([] & w6 & H6 & Hgit).
  assert (rel (fun q => q `prefix_of` gd \/ gd `prefix_of` q)
            (fun e => store_event e = true) w5 w6) as Hframe6.
  { eapply steps_run; [|exact H6].
    apply steps_submission_backup; auto. }
  apply submission_backup_ok_archive in H6 as (bytes' & Hb1 & Hb2 & Hzg);
    [|done].
  rewrite (rel_fs _ _ _ _ _ H5) in Hb1 by done. simpl in Hb1.
  rewrite Ha2 in Hb1. inversion Hb1; subst bytes'. clear Hb1.
  apply (steps_run _ _ _ _ _ _ (steps_submission_git_commit _ _ _)) in Hgit.
  apply rel_nothing_fs in Hgit.
  exists bytes, name. simpl. rewrite Hgit.
  split; [done|]. split; [done|]. split; [|done].
  rewrite (rel_fs _ _ _ _ _ Hframe6) by tauto.
  rewrite (rel_fs _ _ _ _ _ H5) by done. done.
Qed.

End RoundTrip.

(** X9: when [submit] returns normally, for an upload that lies outside
    the backup area and outside the canonical directory of the submission
    (two areas that do not contain each other), the uploaded file is
    untouched and its bytes are, unchanged, in three places: the
    [archive.zip] of a historical backup, the [archive.zip] of the
    canonical backup, and the [archive.zip] member of the bundle that was
    put on the tester's queue. *)
Theorem uploaded_archive_round_trip `{X : Env}
    ar asg user c skip forced w w' vmcfg :
  course_config c = Some vmcfg ->
  let db := dir_backup (root_path vmcfg) in
  let gd := dir_submission_root (root_path vmcfg) asg user in
  abspath (root_path vmcfg) (submission_archive_file gd)
    = submission_archive_file gd ->
  ¬ db `prefix_of` ar -> ¬ gd `prefix_of` ar ->
  ¬ db `prefix_of` gd -> ¬ gd `prefix_of` db ->
  submit ar asg user c skip forced w = (Ok tt, w') ->
  exists bytes name b remote ms,
    fs w !! ar = Some (File bytes) /\
    fs w' !! ar = Some (File bytes) /\
    fs w' !! submission_archive_file (db ++ [name]) = Some (File bytes) /\
    fs w' !! submission_archive_file gd = Some (File bytes) /\
    EvSftpPut b remote ∈ new_events w w' /\
    fs w' !! b = Some (File (Zip ms)) /\
    ms !! 2%nat = Some ("archive.zip", bytes).
Proof.
  intros Hcfg db gd Habs Har_db Har_gd Hdg Hgd Hrun.
  destruct (submit_ways ar asg user c skip forced w)
    as [[_ H]|(vmcfg' & Hcfg' & [[_ H]|(u & _ & [[_ H]|(_ & w1 & Hrel & [[_ H]|[_ H]])])])];
    rewrite H in Hrun; try discriminate.
  clear H. rewrite Hcfg in Hcfg'. inversion Hcfg'; subst vmcfg'. clear Hcfg'.
  apply bind_ok_inv in Hrun as ([] & w2 & Hsave & Hq).
  unfold queue_for_testing, load_course_config in Hq. rewrite Hcfg in Hq.
  unfold bind at 1, ret at 1 in Hq.
  apply bind_ok_inv in Hq as (b & w3 & Hbundle & Hssh).
  pose proof (steps_run _ _ _ _ _ _
                (steps_save_submission_in_storer _ _ _ _ _) Hsave) as Hrel1.
  pose proof (steps_run _ _ _ _ _ _
                (steps_create_testing_bundle _ _ _) Hbundle) as Hrel2.
  apply (save_submission_in_storer_archives _ _ _ _ _ _ _ _ Hcfg) in Hsave
    as (bytes & name & Ha & Ha2 & Hhist & Hcanon); try done.
  fold db gd in Hhist, Hcanon.
  rewrite (rel_nothing_fs _ _ _ Hrel) in Ha.
  pose proof (create_testing_bundle_ok _ _ _ _ _ _ _ Hcfg Hbundle)
    as (ms & Hfresh & Hfin & Hframe & Hall).
  apply ssh_bundle_ok in Hssh as (Hfs & remote & pre & post & Htr).
  unfold rel_file_list in Hall. simpl in Hall.
  apply Forall2_cons_inv_r in Hall as ([n1 c1] & ms1 & [Hn1 _] & Hall & ->).
  apply Forall2_cons_inv_r in Hall as ([n2 c2] & ms2 & [Hn2 _] & Hall & ->).
  apply Forall2_cons_inv_r in Hall as ([n3 c3] & ms3 & [Hn3 Hc3] & Hall & ->).
  simpl in *. subst n1 n2 n3. fold gd in Hc3.
  rewrite Habs, Hcanon in Hc3.
  assert (forall q n, fs w2 !! q = Some n -> q ≠ b) as Hold.
  { intros q n Hq ->. by rewrite Hfresh in Hq. }
  assert (c3 = bytes) as ->.
  { specialize (Hc3 (Hold _ _ Hcanon)). by inversion Hc3. }
  exists bytes, name, b, remote, (("build.sh", c1) :: ("run.sh", c2)
                                   :: ("archive.zip", bytes) :: ms3).
  rewrite Hfs.
  rewrite (Hframe _ (Hold _ _ Ha2)), (Hframe _ (Hold _ _ Hhist)),
    (Hframe _ (Hold _ _ Hcanon)).
  split; [done|]. split; [done|]. split; [done|]. split; [done|].
  split; [|done].
  destruct Hrel as (_ & t0 & Ht0 & _), Hrel1 as (_ & t1 & Ht1 & _),
    Hrel2 as (_ & t2 & Ht2 & _).
  unfold new_events.
  rewrite Htr, Ht2, Ht1, Ht0, <- !app_assoc, drop_app_length.
  rewrite !elem_of_app. do 4 right. constructor.
Qed.

Lemma uploaded_archive_round_trip_witness :
  let X := Demo.env 0 None in
  let w := Demo.storer Demo.hw1 in
  let w' := (@submit X Demo.upload "lab1" "alice" "cs101" false None w).2 in
  exists bytes name b remote ms,
    fs w !! Demo.upload = Some (File bytes) /\
    fs w' !! Demo.upload = Some (File bytes) /\
    fs w' !! submission_archive_file (["srv"; "back"] ++ [name])
      = Some (File bytes) /\
    fs w' !! submission_archive_file ["srv"; "repo"; "lab1"; "alice"]
      = Some (File bytes) /\
    EvSftpPut b remote ∈ new_events w w' /\
    fs w' !! b = Some (File (Zip ms)) /\
    ms !! 2%nat = Some ("archive.zip", bytes).
Proof.
  intros X w w'.
  apply (@uploaded_archive_round_trip X Demo.upload "lab1" "alice" "cs101"
           false None w w' Demo.cs101).
  - reflexivity.
  - reflexivity.
  - intros [k Hk]. discriminate.
  - intros [k Hk]. discriminate.
  - intros [k Hk]. discriminate.
  - intros [k Hk]. discriminate.
  - exact (run_eq (@submit X Demo.upload "lab1" "alice" "cs101" false None w)
             (Ok tt) ltac:(vm_compute; reflexivity)).
Defined.

(** * The runs of a job on the tester *)

Section Jobs.
Context `{X : Env}.





End Jobs.


(** * The descriptor of a submission *)

(** X11: [submission_config] never raises; the table it returns has the
    single section [Assignment] with seven options, and each of the seven
    values reads back, under the name it was stored with, as the argument
    it came from. *)
Theorem submission_config_round_trip u a c t r su sh :
  exists cfg opts,
    submission_config u a c t r su sh = Ok cfg /\
    (forall s, is_Some (cfg !! s) <-> s = "Assignment") /\
    cfg !! "Assignment" = Some opts /\ size opts = 7%nat /\
    cfg_get "Assignment" "User" cfg = Some u /\
    cfg_get "Assignment" "Assignment" cfg = Some a /\
    cfg_get "Assignment" "UploadTime" cfg = Some t /\
    cfg_get "Assignment" "CourseID" cfg = Some c /\
    cfg_get "Assignment" "ResultsDest" cfg = Some r /\
    cfg_get "Assignment" "RemoteUsername" cfg = Some su /\
    cfg_get "Assignment" "RemoteHostname" cfg = Some sh.
Proof.
  rewrite submission_config_eq. eexists _, _.
  split; [reflexivity|]. split; [|split; [apply lookup_singleton_eq|]].
  - intros s. unfold descriptor. split.
    + intros [o Ho]. by apply lookup_singleton_Some in Ho as [<- _].
    + intros ->. rewrite lookup_singleton_eq. eauto.
  - split.
    + rewrite !map_size_insert_None, map_size_empty; [done|..];
        by simplify_map_eq.
    + unfold cfg_get, descriptor. rewrite lookup_singleton_eq. simpl.
      repeat split; by simplify_map_eq.
Qed.

(** * A backup of an upload that cannot be read *)

Section Unreadable.
Context `{X : Env}.

Lemma os_makedirs_cases p w :
  (exists e, os_makedirs p w = (Raise e, emit (EvMakedirs p) w)) \/
  (existsb (is_file (fs w)) (inits p) = false /\
   os_makedirs p w = (Ok tt, set_fs (mkdirs p) (emit (EvMakedirs p) w))).
Proof.
  unfold os_makedirs, prim.
  destruct (io_fault _); [left; eauto|].
  unfold bind, get_fs. simpl.
  destruct (path_exists (fs w) p); [left; eauto|].
  destruct (existsb _ _) eqn:Hg; [left; eauto|by right].
Qed.

Lemma shutil_copyfile_unreadable src dst w :
  (forall c, fs w !! src ≠ Some (File c)) ->
  exists e, shutil_copyfile src dst w = (Raise e, emit (EvCopyfile src dst) w).
Proof.
  intros Hno. unfold shutil_copyfile, prim.
  destruct (io_fault _); [eauto|].
  unfold bind, get_fs. simpl.
  case_bool_decide; [eauto|].
  destruct (fs w !! src) as [[|c]|] eqn:Hs; eauto.
  by destruct (Hno c).
Qed.

(** What [os.makedirs] changes: missing ancestors become directories. *)
Lemma lookup_mkdirs_guarded (p q : list string) (m : tree) :
  existsb (is_file m) (inits p) = false ->
  mkdirs p m !! q = m !! q \/
  (m !! q = None /\ mkdirs p m !! q = Some Dir /\ q `prefix_of` p).
Proof.
  intros Hg. rewrite lookup_mkdirs. case_decide as Hpre; [|by left].
  destruct (m !! q) as [[|c]|] eqn:Hq; [by left| |by right].
  exfalso. assert (existsb (is_file m) (inits p) = true) as Ht; [|congruence].
  apply existsb_exists. exists q. split.
  - by apply list_elem_of_In, elem_of_inits.
  - unfold is_file. by rewrite Hq.
Qed.

End Unreadable.

(** X12: when the upload is not a file (it is missing, or a directory),
    [submission_backup] raises.  It has then at most created the backup
    directory and tried the copy: no descriptor was written and no
    expansion was attempted; and the tree differs from the one on entry
    only where a missing ancestor of the backup directory (or the
    directory itself) has become a directory, which is not removed again. *)
Theorem backup_of_unreadable_upload `{X : Env} bd a cfg w :
  (forall c, fs w !! a ≠ Some (File c)) ->
  let out := submission_backup bd a cfg w in
  (exists e, out.1 = Raise e) /\
  Forall (fun e => e = EvMakedirs bd
                   \/ e = EvCopyfile a (submission_archive_file bd))
    (new_events w out.2) /\
  (forall q, fs out.2 !! q = fs w !! q \/
             (fs w !! q = None /\ fs out.2 !! q = Some Dir
              /\ q `prefix_of` bd)).
Proof.
  intros Hno out.
  assert (exists e w', backup_prologue bd a cfg w = (Raise e, w') /\
            Forall (fun e => e = EvMakedirs bd
                             \/ e = EvCopyfile a (submission_archive_file bd))
              (new_events w w') /\
            (forall q, fs w' !! q = fs w !! q \/
                       (fs w !! q = None /\ fs w' !! q = Some Dir
                        /\ q `prefix_of` bd)))
    as (e & w' & Hpro & Hev & Hfs).
  { unfold backup_prologue, os_path_exists.
    unfold bind at 1, bind at 1, get_fs at 1, ret at 1.
    destruct (path_exists (fs w) bd); simpl.
    - unfold bind at 1, ret at 1.
      destruct (shutil_copyfile_unreadable a (submission_archive_file bd) w Hno)
        as [e Hcp].
      rewrite (bind_raise _ _ _ _ _ Hcp). eexists _, _. split; [done|].
      rewrite new_events_emit. split; [|by left].
      constructor; [by right|constructor].
    - destruct (os_makedirs_cases bd w) as [[e Hmk]|[Hg Hmk]].
      + rewrite (bind_raise _ _ _ _ _ Hmk). eexists _, _. split; [done|].
        rewrite new_events_emit. split; [|by left].
        constructor; [by left|constructor].
      + rewrite (bind_ok _ _ _ _ _ Hmk).
        set (w1 := set_fs (mkdirs bd) (emit (EvMakedirs bd) w)).
        assert (forall c, fs w1 !! a ≠ Some (File c)) as Hno1.
        { intros c. simpl.
          destruct (lookup_mkdirs_guarded bd a (fs w) Hg) as [->|(_ & -> & _)];
            [apply Hno|done]. }
        destruct (shutil_copyfile_unreadable a (submission_archive_file bd)
                    w1 Hno1) as [e Hcp].
        rewrite (bind_raise _ _ _ _ _ Hcp). eexists _, _. split; [done|].
        split.
        * rewrite (new_events_ext w _ [EvMakedirs bd;
                     EvCopyfile a (submission_archive_file bd)])
            by (simpl; by rewrite <- app_assoc).
          constructor; [by left|]. constructor; [by right|constructor].
        * intros q. simpl. by apply lookup_mkdirs_guarded. }
  assert (out = (Raise e, w')) as ->.
  { subst out. rewrite submission_backup_split.
    by rewrite (bind_raise _ _ _ _ _ Hpro). }
  simpl. eauto.
Qed.

Lemma backup_of_unreadable_upload_witness :
  let X := Demo.env 0 None in
  let bd := ["srv"; "back"; "b1"] in
  let a := ["tmp"; "nothing.zip"] in
  let w := Demo.storer Demo.hw1 in
  let out := @submission_backup X bd a ∅ w in
  (exists e, out.1 = Raise e) /\
  Forall (fun e => e = EvMakedirs bd
                   \/ e = EvCopyfile a (submission_archive_file bd))
    (new_events w out.2) /\
  (forall q, fs out.2 !! q = fs w !! q \/
             (fs w !! q = None /\ fs out.2 !! q = Some Dir
              /\ q `prefix_of` bd)).
Proof.
  intros X bd a w.
  apply (@backup_of_unreadable_upload X bd a ∅ w).
  intros c. vm_compute. discriminate.
Defined.

(** * Preparing a machine: [initialise_course.py] *)

Section InitialiseCourseFacts.
Import InitialiseCourse.
Context (S : site).

Lemma ic_bind_ok {A B} (m : IM A) (k : A -> IM B) s a s1 :
  m s = (Ok a, s1) -> bind m k s = k a s1.
Proof. unfold bind. by intros ->. Qed.

Lemma ic_bind_raise {A B} (m : IM A) (k : A -> IM B) s e s1 :
  m s = (Raise e, s1) -> bind m k s = (Raise e, s1).
Proof. unfold bind. by intros ->. Qed.

(** One directory: the run raises [OSError] and the tree is as it was, or
    it returns and the path is a directory, a new one or the old one. *)
Lemma mkdir_if_not_exist_cases path s :
  (_mkdir_if_not_exist S path s = (Raise OSError, record (Mkdir path) s)
   /\ is_dir (files s) path = false) \/
  (_mkdir_if_not_exist S path s
   = (Ok tt, State (<[path := Dir]> (files s)) (actions s ++ [Mkdir path]))
   /\ files s !! path = None) \/
  (_mkdir_if_not_exist S path s = (Ok tt, record (skipping path) s)
   /\ is_dir (files s) path = true).
Proof.
  unfold _mkdir_if_not_exist, os_mkdir.
  destruct (is_dir (files s) path) eqn:Hd; simpl; [by right; right|].
  destruct (mkdir_refused S _); [by left|].
  destruct (path_exists (files s) path) eqn:Hex; [by left|].
  destruct (is_dir (files s) (removelast path)); [|by left].
  right. left. split; [done|].
  unfold path_exists in Hex. by destruct (files s !! path).
Qed.

Lemma new_actions_ext s s' t :
  actions s' = actions s ++ t -> new_actions s s' = t.
Proof. intros H. unfold new_actions. by rewrite H, drop_app_length. Qed.

Lemma create_paths_run paths s r s' :
  _create_paths S paths s = (r, s') ->
  (forall q, files s' !! q = files s !! q \/
             (files s !! q = None /\ files s' !! q = Some Dir /\ q ∈ paths)) /\
  (r = Ok tt -> forall p, p ∈ paths -> is_dir (files s') p = true) /\
  (r = Ok tt \/ r = Raise OSError) /\
  (exists t, actions s' = actions s ++ t /\
     Forall (fun a => exists p, p ∈ paths /\ (a = Mkdir p \/ a = skipping p)) t).
Proof.
  revert s. induction paths as [|path rest IH]; intros s H; simpl in H.
  { inversion H; subst. split; [by left|]. split.
    - intros _ p Hp. by apply elem_of_nil in Hp.
    - split; [by left|]. exists []. by rewrite app_nil_r. }
  destruct (mkdir_if_not_exist_cases path s)
    as [[Hrun Hd]|[[Hrun Hfresh]|[Hrun Hd]]].
  - rewrite (ic_bind_raise _ _ _ _ _ Hrun) in H. inversion H; subst.
    split; [by left|]. split; [discriminate|]. split; [by right|].
    exists [Mkdir path]. split; [done|].
    constructor; [|constructor]. exists path. split; [by left|by left].
  - rewrite (ic_bind_ok _ _ _ _ _ Hrun) in H.
    apply IH in H as (Hfs & Hok & Hr & t & Ht & HP). simpl in Hfs, Ht.
    split; [|split; [|split; [done|]]].
    + intros q. destruct (decide (q = path)) as [->|Hne].
      * right. split; [done|]. split; [|by left].
        destruct (Hfs path) as [->|[Hnone _]].
        -- apply lookup_insert_eq.
        -- by rewrite lookup_insert_eq in Hnone.
      * destruct (Hfs q) as [->|(Hnone & Hdir & Hin)].
        -- left. by apply lookup_insert_ne.
        -- right. rewrite lookup_insert_ne in Hnone by done.
           split; [done|]. split; [done|by right].
    + intros Hrok p Hp. apply elem_of_cons in Hp as [->|Hp]; [|by apply Hok].
      unfold is_dir. destruct (Hfs path) as [->|[Hnone _]].
      * by rewrite lookup_insert_eq.
      * by rewrite lookup_insert_eq in Hnone.
    + exists (Mkdir path :: t). split; [by rewrite Ht, <- app_assoc|].
      constructor.
      * exists path. split; [by left|by left].
      * eapply Forall_impl; [exact HP|].
        intros a (p & Hp & Ha). exists p. split; [by right|done].
  - rewrite (ic_bind_ok _ _ _ _ _ Hrun) in H.
    apply IH in H as (Hfs & Hok & Hr & t & Ht & HP). simpl in Hfs, Ht.
    split; [|split; [|split; [done|]]].
    + intros q. destruct (Hfs q) as [->|(Hnone & Hdir & Hin)]; [by left|].
      right. split; [done|]. split; [done|by right].
    + intros Hrok p Hp. apply elem_of_cons in Hp as [->|Hp]; [|by apply Hok].
      unfold is_dir in *. destruct (Hfs path) as [->|[Hnone _]]; [done|].
      by rewrite Hnone in Hd.
    + exists (skipping path :: t). split; [by rewrite Ht, <- app_assoc|].
      constructor.
      * exists path. split; [by left|by right].
      * eapply Forall_impl; [exact HP|].
        intros a (p & Hp & Ha). exists p. split; [by right|done].
Qed.

(** Where every path is a directory already, nothing is created. *)
Lemma create_paths_skip paths s :
  (forall p, p ∈ paths -> is_dir (files s) p = true) ->
  _create_paths S paths s
  = (Ok tt, State (files s) (actions s ++ map skipping paths)).
Proof.
  revert s. induction paths as [|path rest IH]; intros s Hall; simpl.
  { rewrite app_nil_r. by destruct s. }
  destruct (mkdir_if_not_exist_cases path s)
    as [[_ Hd]|[[_ Hfresh]|[Hrun _]]].
  - rewrite Hall in Hd by (by left). discriminate.
  - specialize (Hall path ltac:(by left)). unfold is_dir in Hall.
    by rewrite Hfresh in Hall.
  - rewrite (ic_bind_ok _ _ _ _ _ Hrun), IH; simpl.
    + by rewrite <- app_assoc.
    + intros p Hp. apply Hall. by right.
Qed.

(** X13: every run of [_create_paths], whatever its outcome, only ever adds
    directories: a path of the tree that differs afterwards did not exist
    before, is one of the listed paths and is now a directory; nothing is
    removed and nothing is undone when a later path fails.  The run does,
    for each path it gets to, either the [mkdir] or the log of the skip.
    It returns normally or raises [OSError], and after a normal return
    every listed path is a directory. *)
Theorem create_paths_outcome paths s :
  let out := _create_paths S paths s in
  (forall q, files out.2 !! q = files s !! q \/
             (files s !! q = None /\ files out.2 !! q = Some Dir
              /\ q ∈ paths)) /\
  (out.1 = Ok tt -> forall p, p ∈ paths -> is_dir (files out.2) p = true) /\
  (out.1 = Ok tt \/ out.1 = Raise OSError) /\
  Forall (fun a => exists p, p ∈ paths /\ (a = Mkdir p \/ a = skipping p))
    (new_actions s out.2).
Proof.
  intros out.
  destruct (create_paths_run paths s out.1 out.2 (surjective_pairing _))
    as (Hfs & Hok & Hr & t & Ht & HP).
  split; [done|]. split; [done|]. split; [done|].
  by rewrite (new_actions_ext _ _ _ Ht).
Qed.

(** X14: running [main_tester] again after a run that returned normally
    creates nothing and cannot fail: the second run leaves the tree as it
    is, logs one skip for each tester path, in order, and the closing
    line. *)
Theorem main_tester_twice s s' :
  main_tester S s = (Ok tt, s') ->
  main_tester S s'
  = (Ok tt,
     State (files s')
       (actions s' ++ map skipping (tester_paths S)
          ++ [Info " -- tester init done setting up paths and db file." ""])).
Proof.
  unfold main_tester, create_tester_paths. intros H.
  destruct (_create_paths S (tester_paths S) s) as [[[]|e] s1] eqn:Hrun;
    rewrite ?(ic_bind_ok _ _ _ _ _ Hrun), ?(ic_bind_raise _ _ _ _ _ Hrun) in H;
    [|discriminate].
  inversion H; subst s'. clear H.
  apply create_paths_run in Hrun as (_ & Hok & _).
  set (s2 := record (Info " -- tester init done setting up paths and db file."
                       "") s1).
  rewrite (ic_bind_ok _ _ _ _ _ (create_paths_skip _ s2 (Hok eq_refl))).
  unfold act, record. simpl. by rewrite <- !app_assoc.
Qed.

Lemma tame_ret {A} (a : A) : tame (ret a).
Proof.
  intros s. split; [|discriminate]. exists []. by rewrite app_nil_r.
Qed.

Lemma tame_bind {A B} (m : IM A) (k : A -> IM B) :
  tame m -> (forall a, tame (k a)) -> tame (bind m k).
Proof.
  intros Hm Hk s. unfold bind. specialize (Hm s).
  destruct (m s) as [[a|e] s1].
  2:{ destruct Hm as [Hgrow He]. split; [exact Hgrow|].
      intros e0 H0. apply He. simpl in *. congruence. }
  destruct Hm as [(t & Ht & HP) _]. specialize (Hk a s1).
  destruct Hk as [(t' & Ht' & HP') He]. split; [|exact He].
  exists (t ++ t'). simpl in *. rewrite Ht', Ht, <- app_assoc.
  split; [done|]. by apply Forall_app.
Qed.

Lemma tame_act a : (forall p, a ≠ ExecuteScript p) -> tame (act a).
Proof.
  intros Ha s. split; [|discriminate]. exists [a]. split; [done|].
  by constructor.
Qed.

Lemma tame_create_paths paths : tame (_create_paths S paths).
Proof.
  intros s.
  destruct (create_paths_run paths s _ _ (surjective_pairing _))
    as (_ & _ & Hr & t & Ht & HP).
  split.
  - exists t. split; [done|]. eapply Forall_impl; [exact HP|].
    by intros a (p & _ & [->| ->]) q.
  - intros e He. destruct Hr as [Hr|Hr]; rewrite Hr in He; [discriminate|].
    left. by inversion He.
Qed.

Lemma tame_create_storer_git_repo : tame (create_storer_git_repo S).
Proof.
  unfold create_storer_git_repo.
  destruct (repository S) as [r|].
  2:{ intros s. split; [exists []; by rewrite app_nil_r|].
      intros e He. inversion He. eauto. }
  apply tame_bind; [apply tame_ret|intros rel_repo_path].
  apply tame_bind.
  { intros s.
    destruct (create_paths_run [abs_path S rel_repo_path] s _ _
                (surjective_pairing _)) as (_ & _ & Hr & t & Ht & HP).
    simpl in Hr, Ht. unfold bind in Hr, Ht.
    destruct (_mkdir_if_not_exist S _ s) as [[[]|e] s1]; simpl in *.
    - split; [|discriminate]. exists t. split; [done|].
      eapply Forall_impl; [exact HP|]. by intros a (p & _ & [->| ->]) q.
    - split.
      + exists t. split; [done|].
        eapply Forall_impl; [exact HP|]. by intros a (p & _ & [->| ->]) q.
      + intros e' He'. destruct Hr as [Hr|Hr]; [discriminate|].
        left. congruence. }
  intros _ s. destruct (negb _); [|apply tame_ret].
  unfold check_call_git_init.
  destruct (git_init S _ _ _) as [[status m]|]; simpl.
  - destruct (status =? 0); simpl.
    + split; [|discriminate]. exists [GitInit
        (path_to_string (abs_path S rel_repo_path ++ [".git"]) +:+ dquote)].
      split; [done|]. by constructor.
    + split; [|discriminate]. eexists [_; _]. split.
      * by rewrite <- app_assoc.
      * by repeat constructor.
  - split.
    + eexists [_]. split; [done|]. by repeat constructor.
    + intros e He. left. by inversion He.
Qed.

(** X15: [main_storer] never creates the database.  No run executes the
    script that declares the tables.  A failure of [git init] never leaves
    [create_storer_git_repo]: the exceptions of [main_storer] are
    [OSError], [TypeError] and [NoOptionError].  Without a database file
    name the run cannot return normally; with one, a normal return has
    logged that the database is skipped and then the closing line. *)
Theorem main_storer_never_creates_db s :
  let out := main_storer S s in
  (exists t, actions out.2 = actions s ++ t /\
             Forall (fun a => forall p, a ≠ ExecuteScript p) t) /\
  (forall e, out.1 = Raise e ->
     e = OSError \/ e = TypeError \/ exists o, e = NoOptionError o) /\
  (db_file S = None -> out.1 ≠ Ok tt) /\
  (out.1 = Ok tt ->
   exists f t,
     db_file S = Some f /\
     new_actions s out.2
     = t ++ [Info "Skipping existing Sqlite3 DB file %s" (path_to_string f);
             Info " -- storer init done setting up paths and db file." ""]).
Proof.
  intros out.
  assert (tame (create_db S)) as Hdb.
  { unfold create_db. destruct (db_file S).
    - by apply tame_act.
    - intros s0. split; [exists []; by rewrite app_nil_r|].
      intros e He. inversion He. eauto. }
  assert (tame (main_storer S)) as Htame.
  { unfold main_storer, create_storer_paths.
    apply tame_bind; [apply tame_create_paths|intros _].
    apply tame_bind; [apply tame_create_storer_git_repo|intros _].
    apply tame_bind; [exact Hdb|intros _]. by apply tame_act. }
  destruct (Htame s) as [Hgrow Hexn]. fold out in Hgrow, Hexn.
  split; [done|]. split; [done|].
  assert (out.1 = Ok tt ->
          exists f t, db_file S = Some f /\
            new_actions s out.2
            = t ++ [Info "Skipping existing Sqlite3 DB file %s"
                      (path_to_string f);
                    Info " -- storer init done setting up paths and db file."
                      ""]) as Hok.
  { subst out. unfold main_storer, create_storer_paths, bind.
    destruct (tame_create_paths (storer_paths S) s) as [(t1 & Ht1 & _) _].
    destruct (_create_paths S (storer_paths S) s) as [[[]|e1] s1];
      [|discriminate].
    destruct (tame_create_storer_git_repo s1) as [(t2 & Ht2 & _) _].
    destruct (create_storer_git_repo S s1) as [[[]|e2] s2]; [|discriminate].
    unfold create_db. destruct (db_file S) as [f|]; [|discriminate].
    intros _. exists f, (t1 ++ t2). split; [done|].
    apply new_actions_ext. simpl in *.
    by rewrite Ht2, Ht1, <- !app_assoc. }
  split; [|exact Hok].
  intros Hnone Hr. destruct (Hok Hr) as (f & _ & Hf & _). congruence.
Qed.

End InitialiseCourseFacts.

Lemma main_tester_twice_witness :
  let S := InitialiseCourse.demo_site in
  let s := InitialiseCourse.demo_state in
  let s' := (InitialiseCourse.main_tester S s).2 in
  InitialiseCourse.main_tester S s'
  = (InitialiseCourse.Ok tt,
     InitialiseCourse.State (InitialiseCourse.files s')
       (InitialiseCourse.actions s'
          ++ map InitialiseCourse.skipping (InitialiseCourse.tester_paths S)
          ++ [InitialiseCourse.Info
                " -- tester init done setting up paths and db file." ""])).
Proof.
  intros S s s'.
  apply (main_tester_twice S s s').
  exact (surjective_pairing (InitialiseCourse.main_tester S s)).
Defined.
